(** * convar: a console of typed variables, its command executor, log buffer
      and persistence

    A shallow embedding of the Go package [convar] (convar.go, console.go, the
    logging file and the persistence file) and the properties of its
    specification.

    Conventions of the embedding.
    - A Go [string] is the sequence of its runes, as [range] and [[]rune(s)]
      deliver them (well-formed UTF-8 is assumed); [len([]rune(s))] is
      [length].  Byte counts, where the code needs them, are computed from the
      UTF-8 width of each rune.
    - Go's [int] is the 64-bit integer; the package does no arithmetic on the
      values it stores, so they are carried as [Z].
    - A [float64] is a primitive binary64 float; [==] on it is IEEE equality.
    - An [interface{}] is a tagged value [Value].
    - A callback [ValSetFunc] is code of the host, and not nil.  Calling it is
      recorded as a [Call] in the list of calls an operation returns, together
      with the value the variable holds at the moment of the call; what the
      callback then does it does through the operations modelled here.  The
      callbacks [RegDefaultConVars] installs are code of the package: they
      are modelled with it, and [ExecCmd_run] runs them where [ExecCmd]
      records the call.
    - A [*ConVar] registered in a console is the entry of the map
      [c.variables]; a variable held outside a console is a [ConVar] of its
      own.
    - Go's maps are iterated in an order that changes from run to run: an
      operation that ranges over [c.variables] takes the order as an argument,
      a permutation of the values of the map.
    - A panic is a result of its own, [Panics].
    - Locks and atomic cells are not represented: every operation is taken as
      one step. *)

From Stdlib Require Import ZArith NArith List Bool Lia Ascii String.
From Stdlib Require Import Floats.PrimFloat.
From stdpp Require Import gmap list.

Local Open Scope Z_scope.

(** ** The part of Go's standard library the package calls *)

Abbreviation rune := N (only parsing).
Abbreviation gostring := (list N) (only parsing).

(** A literal of ASCII characters as a Go string. *)
Fixpoint str (s : string) : gostring :=
  match s with
  | EmptyString => []
  | String a s' => N_of_ascii a :: str s'
  end.

(** [utf8.RuneLen], for the byte length of a string. *)
Definition utf8_RuneLen (r : rune) : Z :=
  if (r <? 128)%N then 1
  else if (r <? 2048)%N then 2
  else if (r <? 65536)%N then 3
  else 4.

Definition byte_len (s : gostring) : Z :=
  fold_right (fun r n => utf8_RuneLen r + n) 0 s.

(** [unicode.IsSpace]: the Latin-1 cases of its switch and the ranges of the
    [White_Space] table above Latin-1. *)
Definition unicode_IsSpace (r : rune) : bool :=
  if (r <=? 255)%N then
    (r =? 9)%N || (r =? 10)%N || (r =? 11)%N || (r =? 12)%N || (r =? 13)%N
    || (r =? 32)%N || (r =? 133)%N || (r =? 160)%N
  else
    (r =? 5760)%N || ((8192 <=? r)%N && (r <=? 8202)%N)
    || (r =? 8232)%N || (r =? 8233)%N || (r =? 8239)%N || (r =? 8287)%N
    || (r =? 12288)%N.

(** [unicode.ToLower] on ASCII; above ASCII the case tables of the Unicode
    standard decide, which the executor takes as a parameter. *)
Definition ascii_ToLower (r : rune) : rune :=
  if (65 <=? r)%N && (r <=? 90)%N then (r + 32)%N else r.

(** [strings.TrimSpace]: leading and trailing white space removed. *)
Fixpoint TrimLeft_space (s : gostring) : gostring :=
  match s with
  | [] => []
  | r :: s' => if unicode_IsSpace r then TrimLeft_space s' else s
  end.

Definition TrimRight_space (s : gostring) : gostring :=
  rev (TrimLeft_space (rev s)).

Definition strings_TrimSpace (s : gostring) : gostring :=
  TrimRight_space (TrimLeft_space s).

(** [strings.Fields]: the maximal runs of runes that are not white space.
    [cur] holds, reversed, the runes of the field being read. *)
Fixpoint Fields_from (cur : gostring) (s : gostring) : list gostring :=
  match s with
  | [] => match cur with [] => [] | _ => [rev cur] end
  | r :: s' =>
      if unicode_IsSpace r then
        match cur with
        | [] => Fields_from [] s'
        | _ => rev cur :: Fields_from [] s'
        end
      else Fields_from (r :: cur) s'
  end.

Definition strings_Fields (s : gostring) : list gostring := Fields_from [] s.

(** [strings.HasPrefix] and [strings.Contains]. *)
Fixpoint strings_HasPrefix (s prefix : gostring) {struct prefix} : bool :=
  match prefix, s with
  | [], _ => true
  | _ :: _, [] => false
  | p :: prefix', r :: s' => (p =? r)%N && strings_HasPrefix s' prefix'
  end.

Fixpoint strings_Contains (s substr : gostring) : bool :=
  strings_HasPrefix s substr ||
  match s with
  | [] => false
  | _ :: s' => strings_Contains s' substr
  end.

(** [strconv.Atoi]: an optional sign and at least one decimal digit, no other
    rune; a value outside the 64-bit range is an error.  [None] is the error
    result (the executor drops the number returned with it). *)
Definition minInt : Z := - 2 ^ 63.
Definition maxInt : Z := 2 ^ 63 - 1.

Definition is_digit (ch : rune) : bool := (48 <=? ch)%N && (ch <=? 57)%N.

Fixpoint digits_value (n : Z) (s : gostring) : option Z :=
  match s with
  | [] => Some n
  | ch :: s' =>
      if is_digit ch then digits_value (n * 10 + Z.of_N (ch - 48)) s' else None
  end.

Definition strconv_Atoi (s : gostring) : option Z :=
  match s with
  | [] => None
  | ch :: tl =>
      let neg := (ch =? 45)%N in
      let ds := if neg || (ch =? 43)%N then tl else s in
      match ds with
      | [] => None
      | _ :: _ =>
          match digits_value 0 ds with
          | None => None
          | Some n =>
              let v := if neg then - n else n in
              if (minInt <=? v) && (v <=? maxInt) then Some v else None
          end
      end
  end.

(** [strconv.FormatInt (v, 10)], which [fmt] uses for [%v] on an int: the
    digits are produced from the least significant one, as [formatBits]
    does. *)
Fixpoint format_digits (fuel : nat) (n : Z) (acc : gostring) : gostring :=
  match fuel with
  | O => acc
  | S fuel' =>
      let acc' := Z.to_N (48 + n mod 10) :: acc in
      if n <? 10 then acc' else format_digits fuel' (n / 10) acc'
  end.

Definition strconv_Itoa (v : Z) : gostring :=
  if v <? 0 then 45%N :: format_digits 20 (- v) []
  else format_digits 20 v [].

(** [bufio.Scanner] with [bufio.ScanLines] and the default buffer: the lines
    of the input without their end-of-line marker ("\n" or "\r\n"); a last
    line without marker counts when it is not empty.  A line that does not
    fit the buffer of [MaxScanTokenSize] bytes together with its marker ends
    the scan (the scanner's error is of no concern to a caller that does not
    ask for it). *)
Definition MaxScanTokenSize : Z := 64 * 1024.

Definition dropCR (line : gostring) : gostring :=
  match rev line with
  | 13%N :: l => rev l
  | _ => line
  end.

Fixpoint ScanLines_from (cur : gostring) (data : gostring) : list gostring :=
  match data with
  | [] =>
      match cur with
      | [] => []
      | _ => if byte_len cur <? MaxScanTokenSize then [dropCR (rev cur)] else []
      end
  | r :: data' =>
      if (r =? 10)%N then
        if byte_len cur <? MaxScanTokenSize
        then dropCR (rev cur) :: ScanLines_from [] data'
        else []
      else ScanLines_from (r :: cur) data'
  end.

Definition Scanner_lines (data : gostring) : list gostring :=
  ScanLines_from [] data.

(** What the package takes from the standard library and this file does not
    spell out: the Unicode case table behind [strings.ToLower], the decimal
    reader [strconv.ParseFloat (s, 64)] ([None] when it returns an error) and
    the text [fmt] prints for a [float64] under [%v]. *)
Class StdLib := {
  unicode_ToLower : rune -> rune;
  strconv_ParseFloat : gostring -> option float;
  fmt_Float64 : float -> gostring
}.

Definition strings_ToLower `{StdLib} (s : gostring) : gostring :=
  map unicode_ToLower s.

(** ** reflect.Kind, interface values, errors *)

Module reflect.
Inductive Kind := Invalid | Bool | Int | Float64 | String.

Definition eqb (a b : Kind) : bool :=
  match a, b with
  | Invalid, Invalid | Bool, Bool | Int, Int
  | Float64, Float64 | String, String => true
  | _, _ => false
  end.
End reflect.

Inductive Value :=
  | VNil
  | VBool (b : bool)
  | VInt (n : Z)
  | VFloat64 (f : float)
  | VString (s : gostring).

(** [reflect.TypeOf (v).Kind ()]; on [nil] the type is nil and [Kind] has no
    receiver: [None]. *)
Definition TypeOf_Kind (v : Value) : option reflect.Kind :=
  match v with
  | VNil => None
  | VBool _ => Some reflect.Bool
  | VInt _ => Some reflect.Int
  | VFloat64 _ => Some reflect.Float64
  | VString _ => Some reflect.String
  end.

(** [==] on two interface values: same dynamic type and equal values, where
    floats compare as IEEE 754 says (a NaN differs from itself). *)
Definition iface_eqb (a b : Value) : bool :=
  match a, b with
  | VNil, VNil => true
  | VBool x, VBool y => Bool.eqb x y
  | VInt x, VInt y => x =? y
  | VFloat64 x, VFloat64 y => PrimFloat.eqb x y
  | VString x, VString y => bool_decide (x = y)
  | _, _ => false
  end.

(** The error values, one constructor per format string of the package, with
    the arguments of the format; [errOS] stands for an error of [os]. *)
Inductive error :=
  | errBadStringConversion (valStr : gostring) (k : reflect.Kind)
  | errVarNotFound (name : gostring)
  | errVarBadType (name : gostring) (k : reflect.Kind)
  | errTypeMismatch (v : Value) (name : gostring) (k : reflect.Kind)
  | errUnsupportedType (k : reflect.Kind)
  | errNilValue
  | errOS (path : gostring).

Inductive Outcome (A : Type) :=
  | Returns (a : A)
  | Panics.
Arguments Returns {A} a.
Arguments Panics {A}.

(** ** convar.go *)

(** A host function of type [ValSetFunc], by name. *)
Definition ValSetFunc := nat.

(** The field [console] is the pointer handed to the callback and not
    represented. *)
Record ConVar := {
  varName : gostring;
  varType : reflect.Kind;
  varDesc : gostring;
  value : Value;
  valDefault : Value;
  valSet : ValSetFunc;
  isFunc : bool
}.

(** [cv.value.Store (v)]. *)
Definition Store (cv : ConVar) (v : Value) : ConVar :=
  {| varName := varName cv; varType := varType cv; varDesc := varDesc cv;
     value := v; valDefault := valDefault cv; valSet := valSet cv;
     isFunc := isFunc cv |}.

(** One call [cv.valSet (cv.console, oldVal, newVal)]; [call_seen] is what
    [cv.value.Load ()] gives when the call is made. *)
Record Call := {
  call_fn : ValSetFunc;
  call_var : gostring;
  call_old : Value;
  call_new : Value;
  call_seen : Value
}.

Definition call_valSet (cv : ConVar) (oldVal newVal : Value) : Call :=
  {| call_fn := valSet cv; call_var := varName cv;
     call_old := oldVal; call_new := newVal; call_seen := value cv |}.

Definition supported (k : reflect.Kind) : bool :=
  match k with
  | reflect.Int | reflect.Float64 | reflect.String => true
  | _ => false
  end.

Definition NewConVar `{StdLib} (name : gostring) (kind : reflect.Kind)
    (isfunc : bool) (desc : gostring) (default : Value) (valset : ValSetFunc)
  : Outcome ConVar :=
  let name := strings_ToLower name in
  match TypeOf_Kind default with
  | None => Panics
  | Some k =>
      if negb (reflect.eqb kind k) then Panics
      else if negb (supported kind) then Panics
      else Returns {| varName := name; varType := kind; varDesc := desc;
                      value := default; valDefault := default;
                      valSet := valset; isFunc := isfunc |}
  end.

(** The result of [write]: the variable afterwards, the calls of the callback
    in the order they were made, and the error. *)
Definition write (cv : ConVar) (kind : reflect.Kind) (v : Value) (argc : Z)
  : ConVar * list Call * option error :=
  match TypeOf_Kind v with
  | None => (cv, [], Some errNilValue)
  | Some k =>
      if negb (reflect.eqb kind k) then
        (cv, [], Some (errTypeMismatch v (varName cv) kind))
      else if negb (reflect.eqb (varType cv) kind) then
        (cv, [], Some (errVarBadType (varName cv) kind))
      else if isFunc cv then
        (cv, [call_valSet cv (valDefault cv) v], None)
      else if argc <? 2 then
        (cv, [], None)
      else
        let oldVal := value cv in
        if iface_eqb oldVal v then (cv, [], None)
        else
          let cv' := Store cv v in
          (cv', [call_valSet cv' oldVal v], None)
  end.

(** The accessors.  [Load] never gives [nil] once [NewConVar] has stored the
    default; on [nil] the call of [Kind] has no receiver. *)
Definition ConVar_Bool (cv : ConVar) : Outcome (bool * option error) :=
  match value cv with
  | VNil => Panics
  | VInt n => Returns (n =? 1, None)
  | _ => Returns (false, Some (errVarBadType (varName cv) reflect.Int))
  end.

Definition ConVar_Int (cv : ConVar) : Outcome (Z * option error) :=
  match value cv with
  | VNil => Panics
  | VInt n => Returns (n, None)
  | _ => Returns (0, Some (errVarBadType (varName cv) reflect.Int))
  end.

Definition ConVar_Float64 (cv : ConVar) : Outcome (float * option error) :=
  match value cv with
  | VNil => Panics
  | VFloat64 f => Returns (f, None)
  | _ => Returns (0%float, Some (errVarBadType (varName cv) reflect.Float64))
  end.

Definition ConVar_String (cv : ConVar) : Outcome (gostring * option error) :=
  match value cv with
  | VNil => Panics
  | VString s => Returns (s, None)
  | _ => Returns ([], Some (errVarBadType (varName cv) reflect.String))
  end.

Definition Interface (cv : ConVar) : Value * option error := (value cv, None).

Definition SetBool (cv : ConVar) (b : bool) :=
  if b then write cv reflect.Int (VInt 1) 2 else write cv reflect.Int (VInt 0) 2.

Definition SetInt (cv : ConVar) (n : Z) := write cv reflect.Int (VInt n) 2.

Definition SetFloat64 (cv : ConVar) (f : float) :=
  write cv reflect.Float64 (VFloat64 f) 2.

Definition SetString (cv : ConVar) (s : gostring) :=
  write cv reflect.String (VString s) 2.

Definition Reset (cv : ConVar) : ConVar := Store cv (valDefault cv).

Definition IsFunc (cv : ConVar) : bool := isFunc cv.

(** ** The console: console.go and the logging file *)

Definition LogLevel := Z.
Definition LogNone : LogLevel := 0.
Definition LogInfo : LogLevel := 1.
Definition LogWarning : LogLevel := 2.
Definition LogError : LogLevel := 3.

Record Console := {
  variables : gmap gostring ConVar;
  buffer : list gostring;
  bufMaxLines : Z;
  logLevel : LogLevel;
  logInfoPrefix : gostring;
  logWarnPrefix : gostring;
  logErrPrefix : gostring
}.

Definition NewConsole (maxLines : Z) (level : LogLevel)
    (infoPrefix warnPrefix errPrefix : gostring) : Console :=
  {| variables := ∅; buffer := []; bufMaxLines := maxLines; logLevel := level;
     logInfoPrefix := infoPrefix; logWarnPrefix := warnPrefix;
     logErrPrefix := errPrefix |}.

Definition set_variables (c : Console) (m : gmap gostring ConVar) : Console :=
  {| variables := m; buffer := buffer c; bufMaxLines := bufMaxLines c;
     logLevel := logLevel c; logInfoPrefix := logInfoPrefix c;
     logWarnPrefix := logWarnPrefix c; logErrPrefix := logErrPrefix c |}.

Definition set_buffer (c : Console) (b : list gostring) : Console :=
  {| variables := variables c; buffer := b; bufMaxLines := bufMaxLines c;
     logLevel := logLevel c; logInfoPrefix := logInfoPrefix c;
     logWarnPrefix := logWarnPrefix c; logErrPrefix := logErrPrefix c |}.

(** [c.log (prefix, format, a...)], with [msg] the text [fmt.Sprintf] makes of
    [format] and [a].  The slice expression [c.buffer[1:]] is out of range on
    an empty slice. *)
Definition log (c : Console) (prefix msg : gostring) : Outcome Console :=
  let out := prefix ++ msg in
  if Z.of_nat (length (buffer c)) >=? bufMaxLines c then
    match buffer c with
    | [] => Panics
    | _ :: rest => Returns (set_buffer c (rest ++ [out]))
    end
  else Returns (set_buffer c (buffer c ++ [out])).

Definition LogInfof (c : Console) (msg : gostring) : Outcome Console :=
  if LogInfo >? logLevel c then Returns c else log c (logInfoPrefix c) msg.

Definition LogWarningf (c : Console) (msg : gostring) : Outcome Console :=
  if LogInfo >? logLevel c then Returns c else log c (logWarnPrefix c) msg.

Definition LogErrorf (c : Console) (msg : gostring) : Outcome Console :=
  if LogInfo >? logLevel c then Returns c else log c (logErrPrefix c) msg.

Definition LogPrintf (c : Console) (msg : gostring) : Outcome Console :=
  log c [] msg.

Definition SetLogLevel (c : Console) (level : LogLevel) : Console :=
  {| variables := variables c; buffer := buffer c; bufMaxLines := bufMaxLines c;
     logLevel := level; logInfoPrefix := logInfoPrefix c;
     logWarnPrefix := logWarnPrefix c; logErrPrefix := logErrPrefix c |}.

(** [strings.Join (lines, "\n")]. *)
Fixpoint Join_lines (lines : list gostring) : gostring :=
  match lines with
  | [] => []
  | [l] => l
  | l :: rest => l ++ 10%N :: Join_lines rest
  end.

Definition Buffer (c : Console) : gostring := Join_lines (buffer c).

Definition BufferRaw (c : Console) : list gostring := buffer c.

Definition ClearBuffer (c : Console) : Console := set_buffer c [].

(** [chunks (s, chunkSize)].  [chunk] is the filled part of the array of
    [chunkSize] runes: [make] refuses a negative size and [chunk[len] = r]
    an index that is not below it. *)
Fixpoint chunks_loop (chunkSize : Z) (chunk : gostring) (s : gostring)
  : Outcome (list gostring) :=
  match s with
  | [] => Returns (match chunk with [] => [] | _ => [chunk] end)
  | r :: s' =>
      if Z.of_nat (length chunk) >=? chunkSize then Panics
      else
        let chunk' := chunk ++ [r] in
        if Z.of_nat (length chunk') =? chunkSize then
          match chunks_loop chunkSize [] s' with
          | Returns cs => Returns (chunk' :: cs)
          | Panics => Panics
          end
        else chunks_loop chunkSize chunk' s'
  end.

Definition chunks (s : gostring) (chunkSize : Z) : Outcome (list gostring) :=
  if chunkSize >=? byte_len s then Returns [s]
  else if chunkSize <? 0 then Panics
  else chunks_loop chunkSize [] s.

Fixpoint BufferWrappedRaw_loop (lines : list gostring) (maxWidth : Z)
    (ret : list gostring) : Outcome (list gostring) :=
  match lines with
  | [] => Returns ret
  | line :: rest =>
      if Z.of_nat (length line) >? maxWidth then
        match chunks line maxWidth with
        | Returns cs => BufferWrappedRaw_loop rest maxWidth (ret ++ cs)
        | Panics => Panics
        end
      else BufferWrappedRaw_loop rest maxWidth (ret ++ [line])
  end.

Definition BufferWrappedRaw (c : Console) (maxWidth : Z)
  : Outcome (list gostring) :=
  BufferWrappedRaw_loop (buffer c) maxWidth [].

(** [RegConVar]: the variable is stored under its own name. *)
Definition RegConVar (c : Console) (cv : ConVar) : Console :=
  set_variables c (<[varName cv := cv]> (variables c)).

Definition ResetAllVar (c : Console) : Console :=
  set_variables c (Reset <$> variables c).

(** [c.ConVar (varName)]. *)
Definition Console_ConVar `{StdLib} (c : Console) (name : gostring)
  : option ConVar :=
  variables c !! strings_ToLower name.

(** [c.ConVars ()] ranges over the map: any order of its values can come
    out. *)
Definition ConVars (c : Console) (cvs : list ConVar) : Prop :=
  cvs ≡ₚ (map_to_list (variables c)).*2.

(** The loop of [Suggest] over [allCvs]; [cvs] is the slice being built.
    The test against [n] comes after the append. *)
Fixpoint Suggest_loop (allCvs : list ConVar) (substr : gostring) (n : Z)
    (cvs : list ConVar) : list ConVar :=
  match allCvs with
  | [] => cvs
  | cv :: rest =>
      if strings_Contains (varName cv) substr then
        let cvs' := cvs ++ [cv] in
        if Z.of_nat (length cvs') >=? n then cvs'
        else Suggest_loop rest substr n cvs'
      else Suggest_loop rest substr n cvs
  end.

(** [c.Suggest (str, n)], given what [c.ConVars ()] returned. *)
Definition Suggest `{StdLib} (allCvs : list ConVar) (s : gostring) (n : Z)
  : list ConVar :=
  if Z.of_nat (length s) <? 3 then []
  else Suggest_loop allCvs (strings_ToLower s) n [].

(** The value of [exec]'s [switch] on the type of the variable: the value
    parsed and the error of the conversion.  No case of the switch takes
    another kind: the value stays [nil]. *)
Definition parse_value `{StdLib} (k : reflect.Kind) (valStr rest : gostring)
  : Value * bool :=
  match k with
  | reflect.Bool | reflect.Int =>
      match strconv_Atoi valStr with
      | Some n => (VInt n, false)
      | None => (VInt 0, true)
      end
  | reflect.Float64 =>
      match strconv_ParseFloat valStr with
      | Some f => (VFloat64 f, false)
      | None => (VFloat64 0, true)
      end
  | reflect.String => (VString (strings_TrimSpace rest), false)
  | reflect.Invalid => (VNil, false)
  end.

(** [c.exec (fromFile, cmd)]: the console afterwards, the calls made, the
    variable returned and the error. *)
Definition exec `{StdLib} (c : Console) (fromFile : bool) (cmd : gostring)
  : Console * list Call * (option ConVar * option error) :=
  let cmd := strings_TrimSpace (strings_ToLower cmd) in
  let tokens := strings_Fields cmd in
  let lent := Z.of_nat (length tokens) in
  match tokens with
  | [] => (c, [], (None, None))
  | tok0 :: _ =>
      if bool_decide (tok0 = str "#") then (c, [], (None, None))
      else
        match variables c !! tok0 with
        | None => (c, [], (None, Some (errVarNotFound tok0)))
        | Some cv =>
            if fromFile && isFunc cv then (c, [], (None, None))
            else
              let rest := drop (length tok0) cmd in
              let valStr :=
                if lent =? 1 then str "0" else strings_TrimSpace rest in
              let '(v, failed) := parse_value (varType cv) valStr rest in
              if failed then
                (c, [],
                 (None, Some (errBadStringConversion valStr (varType cv))))
              else
                let '(cv', calls, err) := write cv (varType cv) v lent in
                let c' := set_variables c (<[tok0 := cv']> (variables c)) in
                match err with
                | Some e => (c', calls, (None, Some e))
                | None => (c', calls, (Some cv', None))
                end
        end
  end.

Definition ExecCmd `{StdLib} (c : Console) (cmd : gostring) :=
  exec c false cmd.

(** ** Files, and the persistence file *)

(** The files there are, and the paths [ioutil.WriteFile] cannot write. *)
Record FS := {
  fs_files : gmap gostring gostring;
  fs_denied : list gostring
}.

Definition os_Open (fs : FS) (path : gostring) : option gostring :=
  fs_files fs !! path.

Definition ioutil_WriteFile (fs : FS) (path data : gostring)
  : FS * option error :=
  if bool_decide (path ∈ fs_denied fs) then (fs, Some (errOS path))
  else ({| fs_files := <[path := data]> (fs_files fs);
           fs_denied := fs_denied fs |}, None).

Definition DumpBuffer (c : Console) (fs : FS) (path : gostring)
  : FS * option error :=
  ioutil_WriteFile fs path (Join_lines (buffer c)).

(** [fmt.Sprintf ("%v", v)]. *)
Definition fmt_v `{StdLib} (v : Value) : gostring :=
  match v with
  | VNil => str "<nil>"
  | VBool b => if b then str "true" else str "false"
  | VInt n => strconv_Itoa n
  | VFloat64 f => fmt_Float64 f
  | VString s => s
  end.

Definition Save_line `{StdLib} (cv : ConVar) : gostring :=
  if negb (iface_eqb (value cv) (valDefault cv)) && negb (isFunc cv)
  then varName cv ++ 32%N :: fmt_v (value cv) ++ [10%N]
  else [].

(** [c.Save (filePath)], with [cvs] the order in which the map is ranged
    over. *)
Definition Save `{StdLib} (cvs : list ConVar) (fs : FS) (path : gostring)
  : FS * option error :=
  ioutil_WriteFile fs path (flat_map Save_line cvs).

(** The loop of [Load]: every line goes to [exec] and what [exec] returns is
    dropped. *)
Fixpoint Load_lines `{StdLib} (c : Console) (lines : list gostring)
  : Console * list Call :=
  match lines with
  | [] => (c, [])
  | line :: rest =>
      let '(c1, calls1, _) := exec c true line in
      let '(c2, calls2) := Load_lines c1 rest in
      (c2, calls1 ++ calls2)
  end.

Definition Load `{StdLib} (c : Console) (fs : FS) (path : gostring)
  : Console * list Call * option error :=
  match os_Open fs path with
  | None => (c, [], Some (errOS path))
  | Some data =>
      let '(c', calls) := Load_lines c (Scanner_lines data) in
      (c', calls, None)
  end.

(** ** Sequences of operations *)

(** [ExecCmd] on each command of a list, in order. *)
Fixpoint ExecCmds `{StdLib} (c : Console) (cmds : list gostring)
  : Console * list Call :=
  match cmds with
  | [] => (c, [])
  | cmd :: rest =>
      let '(c1, calls1, _) := ExecCmd c cmd in
      let '(c2, calls2) := ExecCmds c1 rest in
      (c2, calls1 ++ calls2)
  end.

(** The operations a holder of a [*ConVar] can apply to it. *)
Inductive ConVarOp :=
  | OpWrite (kind : reflect.Kind) (v : Value) (argc : Z)
  | OpSetBool (b : bool)
  | OpSetInt (n : Z)
  | OpSetFloat64 (f : float)
  | OpSetString (s : gostring)
  | OpReset.

Definition apply_op (cv : ConVar) (op : ConVarOp)
  : ConVar * list Call * option error :=
  match op with
  | OpWrite kind v argc => write cv kind v argc
  | OpSetBool b => SetBool cv b
  | OpSetInt n => SetInt cv n
  | OpSetFloat64 f => SetFloat64 cv f
  | OpSetString s => SetString cv s
  | OpReset => (Reset cv, [], None)
  end.

Fixpoint apply_ops (cv : ConVar) (ops : list ConVarOp) : ConVar * list Call :=
  match ops with
  | [] => (cv, [])
  | op :: rest =>
      let '(cv1, calls1, _) := apply_op cv op in
      let '(cv2, calls2) := apply_ops cv1 rest in
      (cv2, calls1 ++ calls2)
  end.

(** [c.log] on each message of a list, in order, with an empty prefix (what
    [LogPrintf] does). *)
Fixpoint log_all (c : Console) (msgs : list gostring) : Outcome Console :=
  match msgs with
  | [] => Returns c
  | msg :: rest =>
      match log c [] msg with
      | Returns c' => log_all c' rest
      | Panics => Panics
      end
  end.

(** ** What the properties are stated with *)

(** What [write] does, check by check. *)
Inductive write_spec (cv : ConVar) (kind : reflect.Kind) (v : Value) (argc : Z)
  : ConVar * list Call * option error -> Prop :=
  | write_nil :
      v = VNil ->
      write_spec cv kind v argc (cv, [], Some errNilValue)
  | write_mismatch k :
      TypeOf_Kind v = Some k -> kind <> k ->
      write_spec cv kind v argc
        (cv, [], Some (errTypeMismatch v (varName cv) kind))
  | write_bad_type :
      TypeOf_Kind v = Some kind -> varType cv <> kind ->
      write_spec cv kind v argc (cv, [], Some (errVarBadType (varName cv) kind))
  | write_func :
      TypeOf_Kind v = Some kind -> varType cv = kind -> isFunc cv = true ->
      write_spec cv kind v argc (cv, [call_valSet cv (valDefault cv) v], None)
  | write_no_arg :
      TypeOf_Kind v = Some kind -> varType cv = kind -> isFunc cv = false ->
      argc < 2 ->
      write_spec cv kind v argc (cv, [], None)
  | write_same :
      TypeOf_Kind v = Some kind -> varType cv = kind -> isFunc cv = false ->
      2 <= argc -> iface_eqb (value cv) v = true ->
      write_spec cv kind v argc (cv, [], None)
  | write_store :
      TypeOf_Kind v = Some kind -> varType cv = kind -> isFunc cv = false ->
      2 <= argc -> iface_eqb (value cv) v = false ->
      write_spec cv kind v argc
        (Store cv v, [call_valSet (Store cv v) (value cv) v], None).

(** What [exec] makes of the result of [write] on the variable found under
    [tok0]. *)
Definition exec_after_write `{StdLib} (c : Console) (tok0 : gostring)
    (w : ConVar * list Call * option error)
  : Console * list Call * (option ConVar * option error) :=
  let c' := set_variables c (<[tok0 := w.1.1]> (variables c)) in
  match w.2 with
  | Some e => (c', w.1.2, (None, Some e))
  | None => (c', w.1.2, (Some w.1.1, None))
  end.

(** [exec] either leaves everything as it is, or is one [write] on a
    registered variable with the kind the variable was declared with. *)
Inductive exec_spec `{StdLib} (c : Console) (fromFile : bool)
  : Console * list Call * (option ConVar * option error) -> Prop :=
  | exec_nothing e :
      exec_spec c fromFile (c, [], (None, e))
  | exec_write tok0 cv v argc :
      variables c !! tok0 = Some cv ->
      fromFile && isFunc cv = false ->
      exec_spec c fromFile
        (exec_after_write c tok0 (write cv (varType cv) v argc)).

(** The last [n] elements of a list. *)
Definition lastn {A} (n : nat) (l : list A) : list A := drop (length l - n) l.

(** A text with a first and a last rune, neither of them white space. *)
Definition trimmed (s : gostring) : Prop :=
  match s with
  | [] => False
  | a :: _ => unicode_IsSpace a = false
  end
  /\ match rev s with
     | [] => False
     | b :: _ => unicode_IsSpace b = false
     end.

Definition no_space (s : gostring) : Prop :=
  Forall (fun r => unicode_IsSpace r = false) s.

(** The variables [Save] writes a line for, and the line without its end. *)
Definition saved (cv : ConVar) : bool :=
  negb (iface_eqb (value cv) (valDefault cv)) && negb (isFunc cv).

Definition Save_text `{StdLib} (cv : ConVar) : gostring :=
  varName cv ++ 32%N :: fmt_v (value cv).

(** A name [exec] can find: one token, in lower case, that is not the
    comment sign. *)
Definition token_name `{StdLib} (name : gostring) : Prop :=
  name <> [] /\ no_space name /\ name <> str "#"
  /\ strings_ToLower name = name.

(** The values whose printed text [exec] reads back.  Integers always; a
    string when lower-casing and trimming leave it alone and it is one
    non-empty line; a float when the library reads its text back. *)
Definition text_ok `{StdLib} (cv : ConVar) : Prop :=
  match value cv with
  | VInt n => varType cv = reflect.Int /\ minInt <= n <= maxInt
  | VString s =>
      varType cv = reflect.String
      /\ trimmed s /\ strings_ToLower s = s /\ (10%N ∉ s)
  | VFloat64 f =>
      varType cv = reflect.Float64
      /\ (10%N ∉ fmt_Float64 f) /\ trimmed (fmt_Float64 f)
      /\ trimmed (strings_ToLower (fmt_Float64 f))
      /\ strconv_ParseFloat (strings_ToLower (fmt_Float64 f)) = Some f
      /\ iface_eqb (valDefault cv) (value cv) = false
  | _ => False
  end.

Definition persistable `{StdLib} (cv : ConVar) : Prop :=
  token_name (varName cv)
  /\ byte_len (Save_text cv) < MaxScanTokenSize
  /\ text_ok cv.

(** What holds of every variable [NewConVar] made, whatever was done to it
    since. *)
Definition ConVar_typed (cv : ConVar) : Prop :=
  TypeOf_Kind (value cv) = Some (varType cv)
  /\ TypeOf_Kind (valDefault cv) = Some (varType cv)
  /\ (isFunc cv = true -> value cv = valDefault cv).

Definition Console_wf (c : Console) : Prop :=
  forall name cv,
    variables c !! name = Some cv -> varName cv = name /\ ConVar_typed cv.

(** The text [exec] gets from the line of [cv], given back as the value. *)
Definition text_reads_back `{StdLib} (cv : ConVar) : Prop :=
  let t := fmt_v (value cv) in
  let u := strings_ToLower t in
  (10%N ∉ t) /\ trimmed t /\ trimmed u
  /\ parse_value (varType cv) u (32%N :: u) = (value cv, false)
  /\ iface_eqb (valDefault cv) (value cv) = false.

(** [strings.ToLower] leaves the space, the minus sign and the digits as
    they are. *)
Definition ToLower_keeps_numerals `{StdLib} : Prop :=
  forall r : rune, r = 32%N \/ r = 45%N \/ is_digit r = true -> unicode_ToLower r = r.

(** The variables of [cvs] put into a map, each under its name. *)
Definition put_all (m : gmap gostring ConVar) (cvs : list ConVar)
  : gmap gostring ConVar :=
  foldl (fun m cv => <[varName cv := cv]> m) m cvs.

(** ** A standard library for the examples

    ASCII lower-casing, and the few float literals the examples use with the
    text Go prints for them. *)
Definition example_ParseFloat (s : gostring) : option float :=
  if bool_decide (s = str "0") then Some 0%float
  else if bool_decide (s = str "1.5") then Some 1.5%float
  else if bool_decide (s = str "nan") then Some nan
  else None.

Definition example_fmt_Float64 (f : float) : gostring :=
  if PrimFloat.is_nan f then str "NaN"
  else if PrimFloat.eqb f 1.5 then str "1.5"
  else str "0".

Definition example_lib : StdLib :=
  {| unicode_ToLower := ascii_ToLower;
     strconv_ParseFloat := example_ParseFloat;
     fmt_Float64 := example_fmt_Float64 |}.

(** A console with an integer, a float and a string variable and a command,
    as the example program builds one. *)
Definition mkConVar (name : string) (kind : reflect.Kind) (isfunc : bool)
    (default : Value) (valset : ValSetFunc) : ConVar :=
  {| varName := str name; varType := kind; varDesc := [];
     value := default; valDefault := default; valSet := valset;
     isFunc := isfunc |}.

Definition cl_width : ConVar := mkConVar "cl_width" reflect.Int false (VInt 640) 1%nat.
Definition cl_scale : ConVar := mkConVar "cl_scale" reflect.Float64 false (VFloat64 1.5) 2%nat.
Definition cl_title : ConVar := mkConVar "cl_title" reflect.String false (VString (str "game")) 3%nat.
Definition con_clear : ConVar := mkConVar "con_clear" reflect.Int true (VInt 0) 4%nat.
Definition con_dump : ConVar := mkConVar "con_dump" reflect.String true (VString (str "console.log")) 5%nat.

Definition example_console : Console :=
  RegConVar (RegConVar (RegConVar (RegConVar (RegConVar
    (NewConsole 3 LogError (str "[I] ") (str "[W] ") (str "[E] "))
    cl_width) cl_scale) cl_title) con_clear) con_dump.

Definition empty_fs : FS := {| fs_files := ∅; fs_denied := [] |}.

(** A console whose variables have been given values by the host. *)
Definition played_console : Console :=
  RegConVar (RegConVar (RegConVar example_console
    (Store cl_width (VInt (-10))))
    (Store cl_title (VString (str "hello world"))))
    (Store cl_scale (VFloat64 0)).

Definition titled_console : Console :=
  RegConVar example_console (Store cl_title (VString (str "Hello"))).

Definition untitled_console : Console :=
  RegConVar example_console (Store cl_title (VString [])).

(** ** More of the package *)

(** [cv.Name ()], [cv.Desc ()], [cv.Type ()]. *)
Definition ConVar_Name (cv : ConVar) : gostring := varName cv.
Definition ConVar_Desc (cv : ConVar) : gostring := varDesc cv.
Definition ConVar_Type (cv : ConVar) : reflect.Kind := varType cv.

(** What a console was made with and what its log holds. *)
Definition same_log (c c' : Console) : Prop :=
  buffer c' = buffer c /\ bufMaxLines c' = bufMaxLines c
  /\ logLevel c' = logLevel c /\ logInfoPrefix c' = logInfoPrefix c
  /\ logWarnPrefix c' = logWarnPrefix c /\ logErrPrefix c' = logErrPrefix c.

(** The declarations of a console: its variables, each at its default. *)
Definition declarations (c : Console) : gmap gostring ConVar :=
  Reset <$> variables c.

(** [strings.ToLower] on ASCII is what Go's documentation says: the letters
    A to Z become a to z, and nothing else changes. *)
Definition ToLower_on_ascii `{StdLib} : Prop :=
  forall r : rune, (r < 128)%N -> unicode_ToLower r = ascii_ToLower r.

Definition all_space (s : gostring) : Prop :=
  Forall (fun r => unicode_IsSpace r = true) s.

(** The operations on the log, and a list of them done in order. *)
Inductive LogOp :=
  | DoLogInfof (msg : gostring)
  | DoLogWarningf (msg : gostring)
  | DoLogErrorf (msg : gostring)
  | DoLogPrintf (msg : gostring)
  | DoSetLogLevel (level : LogLevel)
  | DoClearBuffer.

Definition apply_logop (c : Console) (op : LogOp) : Outcome Console :=
  match op with
  | DoLogInfof msg => LogInfof c msg
  | DoLogWarningf msg => LogWarningf c msg
  | DoLogErrorf msg => LogErrorf c msg
  | DoLogPrintf msg => LogPrintf c msg
  | DoSetLogLevel level => Returns (SetLogLevel c level)
  | DoClearBuffer => Returns (ClearBuffer c)
  end.

Fixpoint apply_logops (c : Console) (ops : list LogOp) : Outcome Console :=
  match ops with
  | [] => Returns c
  | op :: rest =>
      match apply_logop c op with
      | Returns c' => apply_logops c' rest
      | Panics => Panics
      end
  end.

(** The buffer is within the bound the console was made with. *)
Definition buffer_within_bound (c : Console) : Prop :=
  Z.of_nat (length (buffer c)) <= bufMaxLines c.

(** ** The variables of [RegDefaultConVars] *)

(** The text [os] gives its error on a path is the system's. *)
Class OS := {
  os_Error : gostring -> gostring
}.

(** [k.String ()]. *)
Definition Kind_String (k : reflect.Kind) : gostring :=
  match k with
  | reflect.Invalid => str "invalid"
  | reflect.Bool => str "bool"
  | reflect.Int => str "int"
  | reflect.Float64 => str "float64"
  | reflect.String => str "string"
  end.

(** [err.Error ()]: the format string of the package with its arguments. *)
Definition Error `{StdLib} `{OS} (e : error) : gostring :=
  match e with
  | errBadStringConversion valStr k =>
      str "can't convert value " ++ valStr ++ str " from string to "
      ++ Kind_String k
  | errVarNotFound name => str "variable " ++ name ++ str " doesn't exist"
  | errVarBadType name k =>
      str "variable " ++ name ++ str " is not of type " ++ Kind_String k
  | errTypeMismatch v name k =>
      str "given value " ++ fmt_v v ++ str " for variable " ++ name
      ++ str " is not of type " ++ Kind_String k
  | errUnsupportedType k => str "unsupported type " ++ Kind_String k
  | errNilValue => str "value can't be nil"
  | errOS path => os_Error path
  end.

(** What a function of [RegDefaultConVars] leaves: the console, the files and
    the calls of the callbacks of other variables, which are recorded as
    [exec] records them.  [cvs] is the order in which the map of the console
    is ranged over. *)
Definition Closure : Type :=
  list ConVar -> Console -> FS -> Value -> Value
  -> Outcome (Console * FS * list Call).

(** [file := newVal.(string); if file == "" { file = oldVal.(string) }]: the
    type assertion panics on a value that is no string. *)
Definition file_argument (oldVal newVal : Value) : Outcome gostring :=
  match newVal with
  | VString [] =>
      match oldVal with
      | VString file => Returns file
      | _ => Panics
      end
  | VString file => Returns file
  | _ => Panics
  end.

(** [if err != nil { con.LogErrorf ("%v", err); return }; con.LogInfof (...)]. *)
Definition log_result `{StdLib} `{OS} (con : Console) (err : option error)
    (msg : gostring) : Outcome Console :=
  match err with
  | Some e => LogErrorf con (Error e)
  | None => LogInfof con msg
  end.

Definition valSet_con_dump `{StdLib} `{OS} : Closure :=
  fun _ con fs oldVal newVal =>
    match file_argument oldVal newVal with
    | Panics => Panics
    | Returns file =>
        let '(fs', err) := DumpBuffer con fs file in
        match log_result con err (file ++ str " is saved") with
        | Returns con' => Returns (con', fs', [])
        | Panics => Panics
        end
    end.

Definition valSet_con_clear : Closure :=
  fun _ con fs _ _ => Returns (ClearBuffer con, fs, []).

Definition valSet_var_reset_all : Closure :=
  fun _ con fs _ _ => Returns (ResetAllVar con, fs, []).

(** [cv.Reset ()] is on the variable the map points to. *)
Definition valSet_var_reset `{StdLib} `{OS} : Closure :=
  fun _ con fs _ newVal =>
    match newVal with
    | VNil =>
        match LogErrorf con (Error errNilValue) with
        | Returns con' => Returns (con', fs, [])
        | Panics => Panics
        end
    | VString name =>
        match Console_ConVar con name with
        | None =>
            match LogErrorf con (Error (errVarNotFound name)) with
            | Returns con' => Returns (con', fs, [])
            | Panics => Panics
            end
        | Some cv =>
            let con1 :=
              set_variables con
                (<[strings_ToLower name := Reset cv]> (variables con)) in
            match LogInfof con1 (name ++ str " is reset") with
            | Returns con' => Returns (con', fs, [])
            | Panics => Panics
            end
        end
    | _ => Panics
    end.

Definition valSet_var_load `{StdLib} `{OS} : Closure :=
  fun _ con fs oldVal newVal =>
    match file_argument oldVal newVal with
    | Panics => Panics
    | Returns file =>
        let '(con1, calls, err) := Load con fs file in
        match log_result con1 err (file ++ str " is loaded") with
        | Returns con' => Returns (con', fs, calls)
        | Panics => Panics
        end
    end.

Definition valSet_var_save `{StdLib} `{OS} : Closure :=
  fun cvs con fs oldVal newVal =>
    match file_argument oldVal newVal with
    | Panics => Panics
    | Returns file =>
        let '(fs', err) := Save cvs fs file in
        match log_result con err (file ++ str " is saved") with
        | Returns con' => Returns (con', fs', [])
        | Panics => Panics
        end
    end.

(** The loop of [var_list] over [con.ConVars ()]. *)
Fixpoint var_list_loop (con : Console) (cvs : list ConVar) : Outcome Console :=
  match cvs with
  | [] => Returns con
  | cv :: rest =>
      match LogInfof con (varName cv ++ str ": " ++ varDesc cv) with
      | Returns con' => var_list_loop con' rest
      | Panics => Panics
      end
  end.

Definition valSet_var_list : Closure :=
  fun cvs con fs _ _ =>
    match var_list_loop con cvs with
    | Returns con' => Returns (con', fs, [])
    | Panics => Panics
    end.

(** The seven function literals of [RegDefaultConVars], by name as the
    functions of the host are. *)
Definition fn_con_dump : ValSetFunc := 100%nat.
Definition fn_con_clear : ValSetFunc := 101%nat.
Definition fn_var_reset_all : ValSetFunc := 102%nat.
Definition fn_var_reset : ValSetFunc := 103%nat.
Definition fn_var_load : ValSetFunc := 104%nat.
Definition fn_var_save : ValSetFunc := 105%nat.
Definition fn_var_list : ValSetFunc := 106%nat.

Definition default_valSet `{StdLib} `{OS} (fn : ValSetFunc) : option Closure :=
  if (fn =? fn_con_dump)%nat then Some valSet_con_dump
  else if (fn =? fn_con_clear)%nat then Some valSet_con_clear
  else if (fn =? fn_var_reset_all)%nat then Some valSet_var_reset_all
  else if (fn =? fn_var_reset)%nat then Some valSet_var_reset
  else if (fn =? fn_var_load)%nat then Some valSet_var_load
  else if (fn =? fn_var_save)%nat then Some valSet_var_save
  else if (fn =? fn_var_list)%nat then Some valSet_var_list
  else None.

(** The calls of [NewConVar] in [RegDefaultConVars], in its order. *)
Definition default_convars `{StdLib} : list (Outcome ConVar) :=
  [ NewConVar (str "con_dump") reflect.String true
      (str "Saves the console buffer to a file.")
      (VString (str "console.log")) fn_con_dump;
    NewConVar (str "con_clear") reflect.Int true
      (str "Clears the console buffer.") (VInt 0) fn_con_clear;
    NewConVar (str "var_reset_all") reflect.Int true
      (str "Resets all convars to their default values.") (VInt 0)
      fn_var_reset_all;
    NewConVar (str "var_reset") reflect.String true
      (str "Resets given convar to its default value.") (VString [])
      fn_var_reset;
    NewConVar (str "var_load") reflect.String true
      (str "Loads convars from a file, overwriting the ones that are already in the memory.")
      (VString (str "convars.ini")) fn_var_load;
    NewConVar (str "var_save") reflect.String true
      (str "Saves convars to a file.") (VString (str "convars.ini"))
      fn_var_save;
    NewConVar (str "var_list") reflect.Int true
      (str "Lists all convars with their description.") (VInt 0) fn_var_list ].

(** [c.RegConVar (NewConVar (...))], one after the other. *)
Fixpoint RegConVars (c : Console) (news : list (Outcome ConVar))
  : Outcome Console :=
  match news with
  | [] => Returns c
  | Returns cv :: rest => RegConVars (RegConVar c cv) rest
  | Panics :: _ => Panics
  end.

Definition RegDefaultConVars `{StdLib} (c : Console) : Outcome Console :=
  RegConVars c default_convars.

(** A call [write] makes, run: a function of [RegDefaultConVars] on the
    console as [write] left it, a function of the host recorded.  The
    console handed to the function is [cv.console], the one the variable was
    registered with last: here the console that runs the command. *)
Definition run_call `{StdLib} `{OS} (cvs : list ConVar) (c : Console) (fs : FS)
    (call : Call) : Outcome (Console * FS * list Call) :=
  match default_valSet (call_fn call) with
  | Some f => f cvs c fs (call_old call) (call_new call)
  | None => Returns (c, fs, [call])
  end.

(** [c.ExecCmd (cmd)] with the call [write] makes run; the call is the last
    thing [write] does, and [exec] returns what it had to return. *)
Definition ExecCmd_run `{StdLib} `{OS} (cvs : list ConVar) (c : Console)
    (fs : FS) (cmd : gostring)
  : Outcome (Console * FS * list Call * (option ConVar * option error)) :=
  let '(c', calls, ret) := ExecCmd c cmd in
  match calls with
  | [] => Returns (c', fs, [], ret)
  | call :: _ =>
      match run_call cvs c' fs call with
      | Returns (c'', fs', calls') => Returns (c'', fs', calls', ret)
      | Panics => Panics
      end
  end.

(** The variables of [RegDefaultConVars] are in the console. *)
Definition has_defaults `{StdLib} (c : Console) : Prop :=
  Forall (fun new => exists cv,
            new = Returns cv /\ variables c !! varName cv = Some cv)
    default_convars.

Definition default_names : list gostring :=
  [ str "con_dump"; str "con_clear"; str "var_reset_all"; str "var_reset";
    str "var_load"; str "var_save"; str "var_list" ].

(** What a command leaves when the function it calls returns the console
    [o]. *)
Definition command_result {A} (o : Outcome Console) (rest : Console -> A)
  : Outcome A :=
  match o with
  | Returns c => Returns (rest c)
  | Panics => Panics
  end.

(** The example console after [RegDefaultConVars]. *)
Definition default_console : Console :=
  match @RegDefaultConVars example_lib example_console with
  | Returns c => c
  | Panics => example_console
  end.

Definition example_os : OS := {| os_Error := fun path => str "open " ++ path |}.

(** Closed goals about the example consoles are settled by evaluation. *)
Ltac not_in_list :=
  let Hin := fresh in
  intros Hin;
  repeat (apply elem_of_cons in Hin as [Hin|Hin]; [discriminate Hin|]);
  by apply elem_of_nil in Hin.

Ltac by_evaluation :=
  repeat split;
  lazymatch goal with
  | |- _ ∉ _ => vm_compute; not_in_list
  | |- Forall _ _ => repeat constructor
  | |- _ => vm_compute; first [reflexivity | discriminate]
  end.

(** * Properties *)

(** ** The library functions on examples *)

Example Fields_ex :
  strings_Fields (str "  cl_width   10 ") = [str "cl_width"; str "10"].
Proof. reflexivity. Qed.

Example Atoi_ex :
  strconv_Atoi (str "-42") = Some (-42) /\ strconv_Atoi (str "4x") = None
  /\ strconv_Atoi (str "") = None /\ strconv_Atoi (str "+") = None
  /\ strconv_Atoi (str "9223372036854775808") = None
  /\ strconv_Atoi (str "-9223372036854775808") = Some minInt.
Proof. repeat split; reflexivity. Qed.

Example Itoa_ex :
  strconv_Itoa 0 = str "0" /\ strconv_Itoa (-120) = str "-120"
  /\ strconv_Itoa maxInt = str "9223372036854775807".
Proof. repeat split; reflexivity. Qed.

Example chunks_ex :
  chunks (repeat 97%N 100) 40
  = Returns [repeat 97%N 40; repeat 97%N 40; repeat 97%N 20].
Proof. reflexivity. Qed.

Example Float64_of_string_variable :
  ConVar_Float64 cl_title
  = Returns (0%float, Some (errVarBadType (str "cl_title") reflect.Float64)).
Proof. reflexivity. Qed.

Example Scanner_ex :
  Scanner_lines (str "a 1" ++ [13; 10] ++ [10] ++ str "b")%N
  = [str "a 1"; []; str "b"].
Proof. reflexivity. Qed.

(** ** Variables: [write], the setters, [Reset] *)

Lemma reflect_eqb_eq (a b : reflect.Kind) : reflect.eqb a b = true <-> a = b.
Proof. destruct a, b; simpl; split; congruence. Qed.


Lemma set_variables_id (c : Console) : set_variables c (variables c) = c.
Proof. by destruct c. Qed.

Lemma write_cases cv kind v argc : write_spec cv kind v argc (write cv kind v argc).
Proof.
  unfold write.
  destruct (TypeOf_Kind v) as [k|] eqn:Hk.
  2: { apply write_nil. by destruct v. }
  destruct (reflect.eqb kind k) eqn:E1; simpl.
  2: { eapply write_mismatch; [done|]. intros ->.
       by rewrite (proj2 (reflect_eqb_eq k k)) in E1. }
  apply reflect_eqb_eq in E1 as <-.
  destruct (reflect.eqb (varType cv) kind) eqn:E2; simpl.
  2: { apply write_bad_type; [done|]. intros E.
       by rewrite (proj2 (reflect_eqb_eq _ _) E) in E2. }
  apply reflect_eqb_eq in E2.
  destruct (isFunc cv) eqn:Hf; [by apply write_func|].
  destruct (argc <? 2) eqn:Ha.
  { apply write_no_arg; try done. lia. }
  destruct (iface_eqb (value cv) v) eqn:He.
  - apply write_same; try done. lia.
  - apply write_store; try done. lia.
Qed.

(** An error of [write] comes before any effect. *)
Lemma write_error cv kind v argc cv' calls e :
  write cv kind v argc = (cv', calls, Some e) -> cv' = cv /\ calls = [].
Proof.
  intros Hw. pose proof (write_cases cv kind v argc) as Hs.
  rewrite Hw in Hs. by inversion Hs.
Qed.

(** [write] changes nothing but the stored value. *)
Lemma write_frame cv kind v argc :
  let cv' := (write cv kind v argc).1.1 in
  varName cv' = varName cv /\ varType cv' = varType cv
  /\ valDefault cv' = valDefault cv /\ isFunc cv' = isFunc cv
  /\ valSet cv' = valSet cv /\ varDesc cv' = varDesc cv.
Proof.
  pose proof (write_cases cv kind v argc) as Hs.
  destruct (write cv kind v argc) as [[cv' calls] err]. by inversion Hs.
Qed.

(** On a command variable [write] never stores. *)
Lemma write_func_unchanged cv kind v argc :
  isFunc cv = true -> (write cv kind v argc).1.1 = cv.
Proof.
  intros Hf. pose proof (write_cases cv kind v argc) as Hs.
  destruct (write cv kind v argc) as [[cv' calls] err].
  inversion Hs; subst; simpl; congruence.
Qed.

Lemma apply_op_is_write cv op :
  op <> OpReset -> exists kind v argc, apply_op cv op = write cv kind v argc.
Proof. destruct op as [| [] | | | |]; simpl; intros; try done; eauto. Qed.

(** ** The executor *)

Section executor.
Context `{StdLib}.

Lemma exec_cases c fromFile cmd : exec_spec c fromFile (exec c fromFile cmd).
Proof.
  unfold exec.
  destruct (strings_Fields _) as [|tok0 toks] eqn:Htok; [constructor|].
  case_bool_decide; [constructor|].
  destruct (variables c !! tok0) as [cv|] eqn:Hcv; [|constructor].
  destruct (fromFile && isFunc cv) eqn:Hskip; [constructor|].
  destruct (parse_value _ _ _) as [v [|]]; [constructor|].
  match goal with |- context [write cv ?k ?v ?n] =>
    pose proof (exec_write c fromFile tok0 cv v n Hcv Hskip) as Hs;
    unfold exec_after_write in Hs;
    destruct (write cv k v n) as [[cv' calls] [e|]]
  end; exact Hs.
Qed.

Lemma exec_after_write_error c tok0 cv kind v argc c' calls r e :
  variables c !! tok0 = Some cv ->
  exec_after_write c tok0 (write cv kind v argc) = (c', calls, (r, Some e)) ->
  c' = c /\ calls = [] /\ r = None.
Proof.
  intros Hcv. unfold exec_after_write.
  destruct (write cv kind v argc) as [[cv' calls'] [e'|]] eqn:Hw; simpl;
    intros [= <- <- <- <-].
  apply write_error in Hw as [-> ->].
  by rewrite insert_id, set_variables_id.
Qed.

(** An error of [exec] leaves the console as it was. *)
Lemma exec_error c fromFile cmd c' calls r e :
  exec c fromFile cmd = (c', calls, (r, Some e)) ->
  c' = c /\ calls = [] /\ r = None.
Proof.
  intros Hexec.
  destruct (exec_cases c fromFile cmd) as [e'|tok0 cv0 v argc Hcv0 _].
  - by injection Hexec as <- <- <- _.
  - by eapply exec_after_write_error.
Qed.

End executor.

Section executor_facts.
Context `{StdLib}.

Lemma NewConVar_Returns name kind isfunc desc d f cv :
  NewConVar name kind isfunc desc d f = Returns cv ->
  cv = {| varName := strings_ToLower name; varType := kind; varDesc := desc;
          value := d; valDefault := d; valSet := f; isFunc := isfunc |}
  /\ TypeOf_Kind d = Some kind /\ supported kind = true.
Proof.
  unfold NewConVar. destruct (TypeOf_Kind d) as [k|]; [|done].
  destruct (reflect.eqb kind k) eqn:E1; simpl; [|done].
  destruct (supported kind) eqn:E2; simpl; [|done].
  apply reflect_eqb_eq in E1 as <-. by intros [= <-].
Qed.

(** [exec] keeps a command variable as it is, whatever the command. *)
Lemma exec_func_entry c fromFile cmd name cv :
  variables c !! name = Some cv -> isFunc cv = true ->
  variables (exec c fromFile cmd).1.1 !! name = Some cv.
Proof.
  intros Hcv Hf. destruct (exec_cases c fromFile cmd) as [e|tok0 cv0 v argc H0 _].
  { done. }
  unfold exec_after_write.
  destruct (write cv0 (varType cv0) v argc) as [[cv' calls] err] eqn:Hw.
  assert (variables (set_variables c (<[tok0:=cv']> (variables c))) !! name
          = Some cv) as Hgoal.
  { simpl. destruct (decide (tok0 = name)) as [->|Hne].
    - rewrite lookup_insert_eq. rewrite Hcv in H0. injection H0 as <-.
      pose proof (write_func_unchanged cv (varType cv) v argc Hf) as Hu.
      rewrite Hw in Hu. simpl in Hu. by subst.
    - by rewrite lookup_insert_ne. }
  by destruct err.
Qed.




End executor_facts.

Section claims_variables.
Context `{StdLib}.

(** The second run of a command that assigned: same tokens, same variable,
    same value, and the value is already there. *)
Lemma exec_twice c cmd c1 calls1 cv1 :
  exec c false cmd = (c1, calls1, (Some cv1, None)) ->
  isFunc cv1 = false ->
  iface_eqb (value cv1) (value cv1) = true ->
  exec c1 false cmd = (c1, [], (Some cv1, None))
  /\ ((calls1 = [] /\ c1 = c)
      \/ exists name cv0,
           variables c !! name = Some cv0
           /\ iface_eqb (value cv0) (value cv1) = false
           /\ calls1 = [call_valSet cv1 (value cv0) (value cv1)]).
Proof.
  unfold exec. intros Hexec Hf Hrefl. revert Hexec.
  destruct (strings_Fields _) as [|tok0 toks] eqn:Htok; [done|].
  set (lent := Z.of_nat (length (tok0 :: toks))).
  case_bool_decide; [done|].
  destruct (variables c !! tok0) as [cv0|] eqn:Hcv0; [|done].
  cbn [andb].
  destruct (parse_value (varType cv0) _ _) as [v [|]] eqn:Hparse; [done|].
  pose proof (write_cases cv0 (varType cv0) v lent) as Hs.
  pose proof (write_frame cv0 (varType cv0) v lent) as (_&Hty&_&Hfr&_).
  destruct (write cv0 _ _ _) as [[cv' calls] [e|]] eqn:Hw; [done|].
  cbn [fst snd] in Hty, Hfr.
  intros [= <- <- <-]. cbn [variables set_variables].
  rewrite lookup_insert_eq, Hty, Hparse.
  assert (write cv' (varType cv0) v lent = (cv', [], None)) as Hw2.
  { inversion Hs; subst; try congruence.
    (* the first run stored [v] *)
    pose proof (write_cases (Store cv0 v) (varType cv0) v lent) as Hs2.
    destruct (write (Store cv0 v) _ _ _) as [[cv2 calls2] e2].
    inversion Hs2; subst; simpl in *; try congruence; try lia. }
  rewrite Hw2, insert_insert_eq. split; [done|].
  inversion Hs; subst; try congruence.
  - left. split; [done|]. by rewrite insert_id, set_variables_id.
  - left. split; [done|]. by rewrite insert_id, set_variables_id.
  - right. exists tok0, cv0. by repeat split.
Qed.

(** C10.  Whenever [write], a setter or [exec] returns an error, the
    variable (for [exec]: the whole console) is as before and the callback
    has not been called; the errors of [write] are the nil value, the
    mismatch of the supplied kind with the value and the mismatch with the
    declared kind, for command variables as for the others. *)
Theorem error_comes_before_any_effect (cv : ConVar) (op : ConVarOp)
    (c : Console) (fromFile : bool) (cmd : gostring) :
  (forall cv' calls e,
     apply_op cv op = (cv', calls, Some e) ->
     cv' = cv /\ calls = []
     /\ (e = errNilValue
         \/ (exists v k, e = errTypeMismatch v (varName cv) k)
         \/ (exists k, e = errVarBadType (varName cv) k)))
  /\ (forall c' calls r e,
        exec c fromFile cmd = (c', calls, (r, Some e)) ->
        c' = c /\ calls = [] /\ r = None).
Proof.
  split.
  - intros cv' calls e Hop.
    assert (op = OpReset \/ op <> OpReset) as [->|Hne]
      by (destruct op; auto; right; discriminate).
    { discriminate Hop. }
    destruct (apply_op_is_write cv op Hne) as (kind & v & argc & Hw).
    rewrite Hw in Hop. pose proof (write_cases cv kind v argc) as Hs.
    rewrite Hop in Hs. inversion Hs; subst; eauto 10.
  - intros c' calls r e. apply exec_error.
Qed.


(** C9.  A command that is the bare name of a registered variable that is no
    command and has a supported kind changes nothing, calls no callback and
    returns no error (the float reader accepting the text "0" that [exec]
    hands it for a Float64 variable). *)
Theorem bare_name_is_no_op (c : Console) (fromFile : bool) (cmd name : gostring)
    (cv : ConVar) :
  strings_Fields (strings_TrimSpace (strings_ToLower cmd)) = [name] ->
  variables c !! name = Some cv ->
  isFunc cv = false ->
  supported (varType cv) = true ->
  (varType cv = reflect.Float64 -> is_Some (strconv_ParseFloat (str "0"))) ->
  exec c fromFile cmd
  = (c, [], (if bool_decide (name = str "#") then None else Some cv, None)).
Proof.
  intros Htok Hcv Hf Hsup Hzero. unfold exec. rewrite Htok.
  case_bool_decide; [done|]. rewrite Hcv, Hf, andb_false_r.
  change (Z.of_nat (length [name]) =? 1) with true. cbn iota.
  assert (exists v, parse_value (varType cv) (str "0")
                      (drop (length name)
                         (strings_TrimSpace (strings_ToLower cmd)))
                    = (v, false)
                    /\ TypeOf_Kind v = Some (varType cv)) as (v & -> & Hv).
  { unfold parse_value. destruct (varType cv); try done.
    - eexists. split; [reflexivity|done].
    - destruct Hzero as [z ->]; [done|]. by eexists.
    - by eexists. }
  pose proof (write_cases cv (varType cv) v (Z.of_nat (length [name]))) as Hs.
  destruct (write cv _ _ _) as [[cv' calls] err].
  inversion Hs; subst; try congruence; try done; try (simpl in *; lia).
  by rewrite insert_id, set_variables_id.
Qed.

(** C2, as the code has it.  On a variable that is no command: a [write] of
    a value that [==] finds equal to the stored one changes nothing and calls
    nothing; a [write] with [argc >= 2] of a value of the declared kind that
    [==] finds different stores it and then calls the callback with the old
    and the new value, the new one being in place; and a command that
    assigned, run again, changes nothing and calls nothing provided the value
    it left equals itself under [==] (every int, string and float but NaN),
    the first run having called the callback once if it changed the value and
    not at all otherwise. *)
Theorem assignment_is_idempotent (cv : ConVar) (c : Console) (cmd : gostring) :
  (forall kind v argc,
     isFunc cv = false -> iface_eqb (value cv) v = true ->
     (write cv kind v argc).1 = (cv, []))
  /\ (forall v argc,
        isFunc cv = false -> 2 <= argc ->
        TypeOf_Kind v = Some (varType cv) ->
        iface_eqb (value cv) v = false ->
        write cv (varType cv) v argc
        = (Store cv v,
           [{| call_fn := valSet cv; call_var := varName cv;
               call_old := value cv; call_new := v; call_seen := v |}],
           None))
  /\ (forall c1 calls1 cv1,
        exec c false cmd = (c1, calls1, (Some cv1, None)) ->
        isFunc cv1 = false ->
        iface_eqb (value cv1) (value cv1) = true ->
        exec c1 false cmd = (c1, [], (Some cv1, None))
        /\ ((calls1 = [] /\ c1 = c)
            \/ exists name cv0,
                 variables c !! name = Some cv0
                 /\ iface_eqb (value cv0) (value cv1) = false
                 /\ calls1 = [call_valSet cv1 (value cv0) (value cv1)])).
Proof.
  split; [|split].
  - intros kind v argc Hf Heq.
    pose proof (write_cases cv kind v argc) as Hs.
    destruct (write cv kind v argc) as [[cv' calls] err].
    inversion Hs; subst; simpl; congruence.
  - intros v argc Hf Hargc Hk Hne.
    pose proof (write_cases cv (varType cv) v argc) as Hs.
    destruct (write cv (varType cv) v argc) as [[cv' calls] err].
    inversion Hs; subst; try congruence; try lia; try done.
  - intros c1 calls1 cv1. apply exec_twice.
Qed.

End claims_variables.

(** ** The log buffer *)

(** The three helpers test the same level. *)
Lemma helpers_gate_on_LogInfo (c : Console) (msg : gostring) :
  LogInfof c msg
  = (if LogInfo <=? logLevel c then log c (logInfoPrefix c) msg else Returns c)
  /\ LogWarningf c msg
     = (if LogInfo <=? logLevel c then log c (logWarnPrefix c) msg else Returns c)
  /\ LogErrorf c msg
     = (if LogInfo <=? logLevel c then log c (logErrPrefix c) msg else Returns c).
Proof.
  unfold LogInfof, LogWarningf, LogErrorf.
  destruct (Z.gtb_spec LogInfo (logLevel c)), (Z.leb_spec LogInfo (logLevel c));
    try lia; done.
Qed.

(** C4.  At log level [LogInfo] the warning and the error helper record their
    message, although [LogWarning] and [LogError] are above that level. *)
Theorem warning_recorded_at_LogInfo :
  let c := NewConsole 3 LogInfo (str "[I] ") (str "[W] ") (str "[E] ") in
  (LogWarning <=? logLevel c) = false
  /\ LogWarningf c (str "low fuel") = Returns (set_buffer c [str "[W] low fuel"])
  /\ (LogError <=? logLevel c) = false
  /\ LogErrorf c (str "no fuel") = Returns (set_buffer c [str "[E] no fuel"]).
Proof. repeat split. Qed.

Lemma log_Returns c prefix msg :
  1 <= bufMaxLines c ->
  (length (buffer c) <= Z.to_nat (bufMaxLines c))%nat ->
  exists c',
    log c prefix msg = Returns c'
    /\ bufMaxLines c' = bufMaxLines c
    /\ (length (buffer c') <= Z.to_nat (bufMaxLines c))%nat
    /\ forall rest,
         lastn (Z.to_nat (bufMaxLines c)) (buffer c' ++ rest)
         = lastn (Z.to_nat (bufMaxLines c))
             (buffer c ++ (prefix ++ msg) :: rest).
Proof.
  intros Hmax Hlen. unfold log.
  destruct (Z.geb_spec (Z.of_nat (length (buffer c))) (bufMaxLines c)) as [Hge|Hlt].
  - destruct (buffer c) as [|x b] eqn:Hb; [simpl in Hge; lia|].
    eexists. split; [done|]. simpl in *. split; [done|].
    rewrite length_app. simpl. split; [lia|]. intros rest.
    unfold lastn. rewrite <- app_assoc. simpl.
    rewrite !length_app. simpl.
    replace (S (length b + S (length rest)) - Z.to_nat (bufMaxLines c))%nat
      with (S (length b + S (length rest) - Z.to_nat (bufMaxLines c)))%nat by lia.
    done.
  - eexists. split; [done|]. simpl. split; [done|].
    rewrite length_app. simpl. split; [lia|]. intros rest.
    by rewrite <- app_assoc.
Qed.

(** With room for at least one line the buffer holds the last [bufMaxLines]
    of the lines logged. *)
Lemma bounded_buffer msgs c :
  1 <= bufMaxLines c ->
  (length (buffer c) <= Z.to_nat (bufMaxLines c))%nat ->
  exists c',
    log_all c msgs = Returns c'
    /\ BufferRaw c' = lastn (Z.to_nat (bufMaxLines c)) (buffer c ++ msgs).
Proof.
  revert c. induction msgs as [|msg msgs IH]; intros c Hmax Hlen.
  - exists c. split; [done|]. unfold BufferRaw, lastn. rewrite app_nil_r.
    replace (length (buffer c) - Z.to_nat (bufMaxLines c))%nat with 0%nat by lia.
    done.
  - simpl. destruct (log_Returns c [] msg Hmax Hlen) as (c1 & -> & Hm & Hl & Hlast).
    destruct (IH c1) as (c' & Hall & Hbuf); [lia | by rewrite Hm |].
    exists c'. split; [done|]. rewrite Hbuf, Hm. apply Hlast.
Qed.

Lemma bounded_buffer_new (maxLines : Z) (k : nat) level i w e msgs :
  1 <= maxLines ->
  length msgs = (Z.to_nat maxLines + k)%nat ->
  exists c',
    log_all (NewConsole maxLines level i w e) msgs = Returns c'
    /\ length (BufferRaw c') = Z.to_nat maxLines
    /\ BufferRaw c' = drop k msgs.
Proof.
  intros Hmax Hlen.
  destruct (bounded_buffer msgs (NewConsole maxLines level i w e))
    as (c' & Hall & Hbuf); [done | simpl; lia |].
  exists c'. split; [done|]. simpl in Hbuf. unfold lastn in Hbuf.
  replace (length msgs - Z.to_nat maxLines)%nat with k in Hbuf by lia.
  rewrite Hbuf, length_drop. split; [lia|done].
Qed.

(** C6.  A console made with room for no line (or less) has no snapshot
    once a message is logged: the first [log] does not return. *)
Theorem no_snapshot_without_room (maxLines : Z) (level : LogLevel)
    (i w e msg : gostring) (msgs : list gostring) :
  maxLines <= 0 ->
  log_all (NewConsole maxLines level i w e) (msg :: msgs) = Panics.
Proof.
  intros Hmax. cbn [log_all]. unfold log. cbn [buffer bufMaxLines NewConsole length].
  destruct (Z.geb_spec (Z.of_nat 0) maxLines) as [_|Hlt]; [done | simpl in Hlt; lia].
Qed.

Lemma no_snapshot_without_room_witness :
  log_all (NewConsole 0 LogError [] [] []) [str "first line"] = Panics.
Proof. apply (no_snapshot_without_room 0); lia. Defined.

(** C7.  [LogPrintf] on a console made with [bufMaxLines] zero panics, and so
    does every helper that reaches [log]; [BufferWrappedRaw] panics on a
    width of zero once a line is in the buffer. *)
Theorem log_panics_without_room (level : LogLevel) (i w e msg : gostring) :
  LogPrintf (NewConsole 0 level i w e) msg = Panics
  /\ LogErrorf (NewConsole 0 LogError i w e) msg = Panics
  /\ BufferWrappedRaw
       (set_buffer (NewConsole 3 level i w e) [str "a line"]) 0 = Panics.
Proof. repeat split. Qed.


(** ** Suggestions *)


Lemma HasPrefix_spec (s p : gostring) :
  strings_HasPrefix s p = true <-> exists r, s = p ++ r.
Proof.
  revert s. induction p as [|a p IH]; intros s; simpl.
  - split; [intros _; by exists s | done].
  - destruct s as [|b s]; simpl; [split; [done | by intros [r Hr]]|].
    rewrite andb_true_iff, N.eqb_eq, IH. split.
    + intros [-> [r ->]]. by exists r.
    + intros [r [= -> ->]]. eauto.
Qed.

Lemma Contains_spec (s sub : gostring) :
  strings_Contains s sub = true <-> exists l r, s = l ++ sub ++ r.
Proof.
  induction s as [|a s IH]; simpl.
  - rewrite orb_false_r, HasPrefix_spec. split.
    + intros [r Hr]. by exists [], r.
    + intros (l & r & Hs). symmetry in Hs.
      apply app_eq_nil in Hs as [-> Hs]. apply app_eq_nil in Hs as [-> ->].
      by exists [].
  - rewrite orb_true_iff, HasPrefix_spec, IH. split.
    + intros [[r Hr]|(l & r & ->)]; [by exists [], r | by exists (a :: l), r].
    + intros ([|b l] & r & Hs); simpl in Hs.
      * left. eauto.
      * injection Hs as <- ->. right. eauto.
Qed.

(** The loop returns [cvs] extended by variables of [allCvs] whose name
    contains [substr], in the order of [allCvs]. *)
Lemma Suggest_loop_spec allCvs substr n cvs :
  exists found,
    Suggest_loop allCvs substr n cvs = cvs ++ found
    /\ found `sublist_of` allCvs
    /\ Forall (fun cv => strings_Contains (varName cv) substr = true) found
    /\ (Z.of_nat (length cvs) < n ->
        Z.of_nat (length (cvs ++ found)) <= n).
Proof.
  revert cvs. induction allCvs as [|cv rest IH]; intros cvs; simpl.
  - exists []. rewrite app_nil_r. split; [done|]. split; [done|].
    split; [constructor | lia].
  - destruct (strings_Contains (varName cv) substr) eqn:Hc.
    + destruct (Z.geb_spec (Z.of_nat (length (cvs ++ [cv]))) n) as [Hge|Hlt].
      * exists [cv]. split; [done|]. split; [|split].
        -- constructor. apply sublist_nil_l.
        -- by constructor.
        -- rewrite length_app in *. simpl in *. lia.
      * destruct (IH (cvs ++ [cv])) as (found & -> & Hsub & Hall & Hlen).
        exists (cv :: found). rewrite <- app_assoc.
        split; [done|]. split; [|split].
        -- by constructor.
        -- by constructor.
        -- intros _. rewrite <- app_assoc in Hlen. simpl in Hlen.
           by apply Hlen.
    + destruct (IH cvs) as (found & -> & Hsub & Hall & Hlen).
      exists found. split; [done|]. split; [by constructor | done].
Qed.

Section suggest.
Context `{StdLib}.

Lemma Suggest_short allCvs (s : gostring) n :
  (length s < 3)%nat -> Suggest allCvs s n = [].
Proof.
  intros Hs. unfold Suggest.
  destruct (Z.ltb_spec (Z.of_nat (length s)) 3); [done | lia].
Qed.

(** For a limit of at least one the suggestions are at most that many, all
    with the lower-cased text in their name, in the order of [allCvs]. *)
Lemma Suggest_within_limit allCvs (s : gostring) n :
  1 <= n ->
  Z.of_nat (length (Suggest allCvs s n)) <= n
  /\ Forall (fun cv => strings_Contains (varName cv) (strings_ToLower s) = true)
       (Suggest allCvs s n)
  /\ Suggest allCvs s n `sublist_of` allCvs.
Proof.
  intros Hn. unfold Suggest.
  destruct (Z.of_nat (length s) <? 3).
  { simpl. split; [lia|]. split; [constructor | apply sublist_nil_l]. }
  destruct (Suggest_loop_spec allCvs (strings_ToLower s) n [])
    as (found & -> & Hsub & Hall & Hlen).
  simpl in *. split; [apply Hlen; lia | done].
Qed.

Lemma Suggest_loop_no_limit allCvs substr n :
  n <= 0 ->
  Suggest_loop allCvs substr n []
  = match List.find (fun cv => strings_Contains (varName cv) substr) allCvs with
    | Some cv => [cv]
    | None => []
    end.
Proof.
  intros Hn. induction allCvs as [|cv rest IH]; simpl; [done|].
  destruct (strings_Contains (varName cv) substr); [|done].
  destruct (Z.geb_spec (Z.of_nat 1) n); [done | lia].
Qed.

(** C8.  With a limit of zero or less, [Suggest] returns one variable as soon
    as one matches: more than the limit. *)
Theorem Suggest_exceeds_limit_zero allCvs (s : gostring) (n : Z) (cv : ConVar) :
  n <= 0 ->
  (3 <= length s)%nat ->
  cv ∈ allCvs ->
  strings_Contains (varName cv) (strings_ToLower s) = true ->
  length (Suggest allCvs s n) = 1%nat.
Proof.
  intros Hn Hs Hin Hc. unfold Suggest.
  destruct (Z.ltb_spec (Z.of_nat (length s)) 3); [lia|].
  rewrite Suggest_loop_no_limit by done.
  destruct (List.find _ allCvs) as [cv'|] eqn:Hfind; [done|].
  apply list_elem_of_In in Hin.
  by rewrite (find_none _ _ Hfind cv Hin) in Hc.
Qed.

End suggest.

Lemma Suggest_exceeds_limit_zero_witness :
  length (@Suggest example_lib [cl_width; cl_scale] (str "cl_") 0) = 1%nat.
Proof.
  apply (@Suggest_exceeds_limit_zero example_lib _ _ 0 cl_width).
  - lia.
  - simpl. lia.
  - apply list_elem_of_In. simpl. auto.
  - reflexivity.
Defined.

(** ** Loading *)

Section load.
Context `{StdLib}.



End load.

(** ** Saving and loading *)

(** *** Strings *)

Lemma TrimLeft_space_head a s :
  unicode_IsSpace a = false -> TrimLeft_space (a :: s) = a :: s.
Proof. intros Ha. simpl. by rewrite Ha. Qed.

Lemma TrimLeft_space_skip a s :
  unicode_IsSpace a = true -> TrimLeft_space (a :: s) = TrimLeft_space s.
Proof. intros Ha. simpl. by rewrite Ha. Qed.

Lemma trimmed_TrimSpace s : trimmed s -> strings_TrimSpace s = s.
Proof.
  intros [Hfirst Hlast]. unfold strings_TrimSpace, TrimRight_space.
  destruct s as [|a s]; [done|]. rewrite TrimLeft_space_head by done.
  destruct (rev (a :: s)) as [|b l] eqn:Hrev; [done|].
  rewrite TrimLeft_space_head by done. rewrite <- Hrev. apply rev_involutive.
Qed.

Lemma trimmed_app_space name u :
  name <> [] -> no_space name -> trimmed u -> trimmed (name ++ 32%N :: u).
Proof.
  intros Hname Hns [_ Hlast]. split.
  - destruct name as [|a name]; [done|]. simpl. by inversion Hns.
  - rewrite rev_app_distr. simpl. rewrite <- app_assoc.
    destruct (rev u) as [|b l]; [done|]. done.
Qed.

Lemma Fields_from_nonempty cur s : cur <> [] -> Fields_from cur s <> [].
Proof.
  revert cur. induction s as [|r s IH]; intros cur Hcur; simpl.
  - by destruct cur.
  - destruct (unicode_IsSpace r); [by destruct cur | by apply IH].
Qed.

Lemma Fields_from_token tok cur sp rest :
  no_space tok -> unicode_IsSpace sp = true -> cur ++ tok <> [] ->
  Fields_from cur (tok ++ sp :: rest) = (rev cur ++ tok) :: Fields_from [] rest.
Proof.
  intros Hns Hsp. revert cur. induction Hns as [|r tok Hr Hns IH]; intros cur Hne.
  - simpl. rewrite Hsp, app_nil_r. rewrite app_nil_r in Hne. by destruct cur.
  - simpl. rewrite Hr, IH by done. simpl. by rewrite <- app_assoc.
Qed.

(** The tokens of a saved line: the name, then those of the text, of which
    there is at least one. *)
Lemma Fields_name_text name u :
  name <> [] -> no_space name -> trimmed u ->
  exists tok toks,
    strings_Fields (name ++ 32%N :: u) = name :: tok :: toks.
Proof.
  intros Hname Hns [Hfirst _]. unfold strings_Fields.
  rewrite Fields_from_token; [|done|done|by destruct name].
  destruct u as [|a u]; [done|]. simpl. rewrite Hfirst.
  destruct (Fields_from [a] u) as [|tok toks] eqn:HF.
  - by apply Fields_from_nonempty in HF.
  - eauto.
Qed.

Lemma TrimSpace_space_text u :
  trimmed u -> strings_TrimSpace (32%N :: u) = u.
Proof.
  intros Hu. unfold strings_TrimSpace. rewrite TrimLeft_space_skip by done.
  by apply trimmed_TrimSpace.
Qed.

(** *** Integers as text *)

Lemma digit_of_is_digit m :
  0 <= m < 10 ->
  is_digit (Z.to_N (48 + m)) = true /\ Z.of_N (Z.to_N (48 + m) - 48) = m
  /\ unicode_IsSpace (Z.to_N (48 + m)) = false.
Proof.
  intros Hm.
  assert (m = 0 \/ m = 1 \/ m = 2 \/ m = 3 \/ m = 4 \/ m = 5 \/ m = 6 \/ m = 7
          \/ m = 8 \/ m = 9) as Hcases by lia.
  repeat (destruct Hcases as [->|Hcases]; [done|]). by subst.
Qed.

(** The digits [format_digits] puts before [acc]: decimal digits, at least
    one, that [digits_value] reads back as [n]. *)
Lemma format_digits_spec fuel n acc :
  0 <= n < 10 ^ Z.of_nat fuel -> (0 < fuel)%nat ->
  exists ds,
    format_digits fuel n acc = ds ++ acc
    /\ ds <> []
    /\ Forall (fun d => is_digit d = true) ds
    /\ forall a s,
         digits_value a (ds ++ s)
         = digits_value (a * 10 ^ Z.of_nat (length ds) + n) s.
Proof.
  revert n acc. induction fuel as [|fuel IH]; intros n acc Hn Hfuel; [lia|].
  simpl. destruct (digit_of_is_digit (n mod 10)) as (Hd & Hv & _).
  { apply Z.mod_pos_bound. lia. }
  destruct (Z.ltb_spec n 10) as [Hlt|Hge].
  - exists [Z.to_N (48 + n mod 10)]. split; [done|]. split; [done|].
    split; [by constructor|]. intros a s. simpl. rewrite Hd, Hv.
    rewrite Z.mod_small by lia. f_equal; lia.
  - destruct fuel as [|fuel'].
    { simpl in Hn. lia. }
    destruct (IH (n / 10) (Z.to_N (48 + n mod 10) :: acc)) as (ds & -> & Hne & Hall & Hval).
    { split; [apply Z.div_pos; lia|].
      apply Z.div_lt_upper_bound; [lia|].
      rewrite Nat2Z.inj_succ, Z.pow_succ_r in Hn by lia. lia. }
    { lia. }
    exists (ds ++ [Z.to_N (48 + n mod 10)]). rewrite <- app_assoc.
    split; [done|]. split; [by destruct ds|].
    split; [apply Forall_app; split; [done | by constructor]|].
    intros a s. rewrite <- app_assoc, Hval. simpl. rewrite Hd, Hv.
    rewrite length_app, Nat2Z.inj_add, Z.pow_add_r by lia. simpl.
    f_equal; pose proof (Z.div_mod n 10); lia.
Qed.

Lemma int_below_pow20 n : minInt <= n <= maxInt -> Z.abs n < 10 ^ Z.of_nat 20.
Proof. unfold minInt, maxInt. simpl. lia. Qed.

(** [Atoi] reads back what [Itoa] printed. *)
Lemma Atoi_Itoa n : minInt <= n <= maxInt -> strconv_Atoi (strconv_Itoa n) = Some n.
Proof.
  intros Hn. pose proof (int_below_pow20 n Hn) as Hp. unfold strconv_Itoa.
  destruct (Z.ltb_spec n 0) as [Hneg|Hpos].
  - destruct (format_digits_spec 20 (- n) []) as (ds & -> & Hne & Hall & Hval);
      [lia | lia |].
    rewrite app_nil_r. unfold strconv_Atoi. simpl.
    destruct ds as [|d ds]; [done|].
    specialize (Hval 0 []). rewrite app_nil_r in Hval. rewrite Hval. simpl.
    replace (- (0 * 10 ^ Z.of_nat (S (length ds)) + - n)) with n by lia.
    destruct (Z.leb_spec minInt n), (Z.leb_spec n maxInt); try lia. done.
  - destruct (format_digits_spec 20 n []) as (ds & -> & Hne & Hall & Hval);
      [lia | lia |].
    rewrite app_nil_r. unfold strconv_Atoi.
    destruct ds as [|d ds]; [done|].
    apply Forall_cons in Hall as [Hd _].
    assert ((d =? 45)%N = false /\ (d =? 43)%N = false) as [-> ->].
    { unfold is_digit in Hd. apply andb_true_iff in Hd as [H1 H2].
      apply N.leb_le in H1, H2. split; apply N.eqb_neq; lia. }
    cbn [orb].
    specialize (Hval 0 []). rewrite app_nil_r in Hval. rewrite Hval. simpl.
    replace (0 * 10 ^ Z.of_nat (S (length ds)) + n) with n by lia.
    destruct (Z.leb_spec minInt n), (Z.leb_spec n maxInt); try lia. done.
Qed.

(** The runes of a printed integer: the minus sign and digits. *)
Lemma Itoa_runes n :
  minInt <= n <= maxInt ->
  strconv_Itoa n <> []
  /\ Forall (fun r => r = 45%N \/ is_digit r = true) (strconv_Itoa n).
Proof.
  intros Hn. pose proof (int_below_pow20 n Hn) as Hp. unfold strconv_Itoa.
  destruct (Z.ltb_spec n 0) as [Hneg|Hpos].
  - destruct (format_digits_spec 20 (- n) []) as (ds & -> & Hne & Hall & _);
      [lia | lia |].
    split; [done|]. constructor; [by left|]. rewrite app_nil_r.
    eapply Forall_impl; [exact Hall|]. by right.
  - destruct (format_digits_spec 20 n []) as (ds & -> & Hne & Hall & _);
      [lia | lia |].
    rewrite app_nil_r. split; [done|].
    eapply Forall_impl; [exact Hall|]. by right.
Qed.

(** *** Lines *)

Lemma byte_len_nonneg s : 0 <= byte_len s.
Proof.
  induction s as [|r s IH]; simpl; [lia|]. unfold utf8_RuneLen.
  repeat case_match; lia.
Qed.

Lemma dropCR_trimmed l : trimmed l -> dropCR l = l.
Proof.
  intros [_ Hlast]. unfold dropCR. destruct (rev l) as [|b l']; [done|].
  destruct (N.eqb_spec b 13) as [->|Hb]; [done|].
  destruct b as [|p]; [done|]. repeat (destruct p as [p|p|]; try done).
Qed.

Lemma ScanLines_from_line l cur data :
  10%N ∉ l -> byte_len cur + byte_len l < MaxScanTokenSize ->
  ScanLines_from cur (l ++ 10%N :: data)
  = dropCR (rev cur ++ l) :: ScanLines_from [] data.
Proof.
  revert cur. induction l as [|r l IH]; intros cur Hnl Hlen.
  - simpl in *. rewrite app_nil_r.
    destruct (Z.ltb_spec (byte_len cur) MaxScanTokenSize); [done | lia].
  - apply not_elem_of_cons in Hnl as [Hr Hnl]. simpl.
    destruct (N.eqb_spec r 10) as [->|_]; [done|].
    rewrite IH; [| done | simpl in *; lia]. simpl. by rewrite <- app_assoc.
Qed.

Section persistence.
Context `{StdLib}.

Lemma Save_line_eq cv :
  Save_line cv = if saved cv then Save_text cv ++ [10%N] else [].
Proof.
  unfold Save_line, saved, Save_text. destruct (_ && _); [|done].
  by rewrite <- app_assoc.
Qed.

Lemma no_space_not_newline s : no_space s -> 10%N ∉ s.
Proof.
  intros Hs Hin. unfold no_space in Hs. rewrite Forall_forall in Hs.
  by specialize (Hs _ Hin).
Qed.

(** The scanner gives back the lines [Save] wrote. *)
Lemma Scanner_saved_lines cvs :
  (forall cv, cv ∈ cvs -> saved cv = true ->
     no_space (varName cv) /\ (10%N ∉ fmt_v (value cv))
     /\ trimmed (Save_text cv)
     /\ byte_len (Save_text cv) < MaxScanTokenSize) ->
  Scanner_lines (flat_map Save_line cvs) = Save_text <$> filter (fun cv => saved cv = true) cvs.
Proof.
  unfold Scanner_lines. induction cvs as [|cv cvs IH]; intros Hok; [done|].
  simpl. rewrite Save_line_eq. rewrite filter_cons.
  assert (Scanner_lines (flat_map Save_line cvs)
          = Save_text <$> filter (fun cv => saved cv = true) cvs) as IH'.
  { apply IH. intros cv' Hin. apply Hok. by right. }
  unfold Scanner_lines in IH'.
  destruct (saved cv) eqn:Hs.
  - destruct (Hok cv) as (Hns & Hnl & Htr & Hlen); [by left | done |].
    rewrite decide_True by done. rewrite <- app_assoc. simpl.
    rewrite ScanLines_from_line.
    + simpl. rewrite dropCR_trimmed by done. by rewrite IH'.
    + unfold Save_text. rewrite elem_of_app, elem_of_cons.
      intros [Hin|[Heq|Hin]]; [|done|done].
      by apply (no_space_not_newline _ Hns).
    + simpl. lia.
  - rewrite decide_False by done. done.
Qed.

End persistence.

Section round_trip.
Context `{StdLib}.

Lemma ToLower_Itoa n :
  ToLower_keeps_numerals -> minInt <= n <= maxInt ->
  strings_ToLower (strconv_Itoa n) = strconv_Itoa n.
Proof.
  intros Hlow Hn. destruct (Itoa_runes n Hn) as [_ Hall].
  unfold strings_ToLower. induction Hall as [|r l Hr Hall IH]; [done|].
  simpl. rewrite IH. f_equal. apply Hlow. tauto.
Qed.

Lemma is_digit_no_space r : r = 45%N \/ is_digit r = true -> unicode_IsSpace r = false.
Proof.
  intros [->|Hd]; [done|]. unfold is_digit in Hd.
  apply andb_true_iff in Hd as [H1 H2]. apply N.leb_le in H1, H2.
  unfold unicode_IsSpace. destruct (N.leb_spec r 255); [|lia].
  repeat (apply orb_false_iff; split); apply N.eqb_neq; lia.
Qed.

Lemma no_space_trimmed s : s <> [] -> no_space s -> trimmed s.
Proof.
  intros Hne Hns. split.
  - destruct s; [done|]. by inversion Hns.
  - destruct (rev s) as [|b l] eqn:Hrev.
    { apply (f_equal (@rev N)) in Hrev. by rewrite rev_involutive in Hrev. }
    unfold no_space in Hns. rewrite Forall_forall in Hns. apply Hns.
    apply list_elem_of_In, in_rev. rewrite Hrev. by left.
Qed.

Lemma Itoa_no_space n : minInt <= n <= maxInt -> no_space (strconv_Itoa n).
Proof.
  intros Hn. destruct (Itoa_runes n Hn) as [_ Hall].
  eapply Forall_impl; [exact Hall|]. apply is_digit_no_space.
Qed.

Lemma iface_eqb_sym_int_string a b :
  (exists n, b = VInt n) \/ (exists s, b = VString s) ->
  iface_eqb a b = iface_eqb b a.
Proof.
  intros [[n ->]|[s ->]]; destruct a; simpl; try done.
  - apply Z.eqb_sym.
  - apply bool_decide_ext. split; congruence.
Qed.

(** What [text_ok] promises is what [exec] needs. *)
Lemma text_ok_reads_back cv :
  ToLower_keeps_numerals -> saved cv = true -> text_ok cv -> text_reads_back cv.
Proof.
  intros Hlow Hsaved Hok. unfold text_ok in Hok. unfold text_reads_back.
  assert (iface_eqb (value cv) (valDefault cv) = false) as Hne.
  { unfold saved in Hsaved. apply andb_true_iff in Hsaved as [Hs _].
    by apply negb_true_iff in Hs. }
  destruct (value cv) as [| |n|f|s] eqn:Hv; try done.
  - destruct Hok as [Hk Hn]. simpl. rewrite (ToLower_Itoa n Hlow Hn).
    pose proof (Itoa_no_space n Hn) as Hns.
    destruct (Itoa_runes n Hn) as [Hnil _].
    pose proof (no_space_trimmed _ Hnil Hns) as Htr.
    split; [by apply no_space_not_newline|]. split; [done|]. split; [done|].
    split.
    + rewrite Hk. simpl. by rewrite Atoi_Itoa.
    + rewrite iface_eqb_sym_int_string; [done | left; eauto].
  - destruct Hok as (Hk & Hnl & Ht & Hu & Hparse & Hd). simpl.
    split; [done|]. split; [done|]. split; [done|]. split; [|done].
    rewrite Hk. simpl. by rewrite Hparse.
  - destruct Hok as (Hk & Htr & Hlow' & Hnl). simpl. rewrite Hlow'.
    split; [done|]. split; [done|]. split; [done|]. split.
    + rewrite Hk. simpl. by rewrite TrimSpace_space_text.
    + rewrite iface_eqb_sym_int_string; [done | right; eauto].
Qed.

(** [exec], from a file, on the line [Save] wrote for [cv], in a console that
    holds [cv] at its default: the console then holds [cv]. *)
Lemma exec_Save_text c0 cv :
  unicode_ToLower 32%N = 32%N ->
  saved cv = true -> ConVar_typed cv -> token_name (varName cv) ->
  text_reads_back cv ->
  variables c0 !! varName cv = Some (Reset cv) ->
  (exec c0 true (Save_text cv)).1.1
  = set_variables c0 (<[varName cv := cv]> (variables c0)).
Proof.
  intros Hsp Hsaved (Hkv & Hkd & _) (Hname & Hns & Hhash & Hlow)
    (Hnl & Ht & Hu & Hparse & Hdiff) Hreg.
  assert (isFunc cv = false) as Hf.
  { unfold saved in Hsaved. apply andb_true_iff in Hsaved as [_ Hs].
    by apply negb_true_iff in Hs. }
  set (u := strings_ToLower (fmt_v (value cv))) in *.
  assert (strings_ToLower (Save_text cv) = varName cv ++ 32%N :: u) as Hl.
  { unfold Save_text, strings_ToLower. rewrite map_app. simpl.
    fold (strings_ToLower (varName cv)). by rewrite Hlow, Hsp. }
  assert (strings_TrimSpace (varName cv ++ 32%N :: u) = varName cv ++ 32%N :: u)
    as Htrim by by apply trimmed_TrimSpace, trimmed_app_space.
  destruct (Fields_name_text (varName cv) u Hname Hns Hu) as (tok & toks & Hfields).
  unfold exec. rewrite Hl, Htrim, Hfields.
  rewrite bool_decide_eq_false_2 by done. rewrite Hreg.
  replace (isFunc (Reset cv)) with false by done. rewrite andb_false_r.
  replace (Z.of_nat (length (varName cv :: tok :: toks)) =? 1) with false
    by (symmetry; apply Z.eqb_neq; simpl length; lia).
  rewrite drop_app_length, TrimSpace_space_text by done.
  replace (varType (Reset cv)) with (varType cv) by done. rewrite Hparse.
  pose proof (write_cases (Reset cv) (varType cv) (value cv)
                (Z.of_nat (length (varName cv :: tok :: toks)))) as Hs.
  destruct (write (Reset cv) _ _ _) as [[cv' calls] err].
  assert (value cv <> VNil) as Hnn by (intros E; by rewrite E in Hkv).
  assert (cv' = cv) as ->.
  { inversion Hs; subst;
      cbn [Reset Store varType isFunc value valDefault length] in *;
      try congruence; try lia.
    by destruct cv. }
  by destruct err.
Qed.

End round_trip.

Section round_trip_console.
Context `{StdLib}.

Lemma put_all_other cvs m k :
  k ∉ varName <$> cvs -> put_all m cvs !! k = m !! k.
Proof.
  revert m. induction cvs as [|cv cvs IH]; intros m Hk; [done|].
  rewrite fmap_cons in Hk. apply not_elem_of_cons in Hk as [Hne Hk].
  simpl. rewrite IH by done. by rewrite lookup_insert_ne.
Qed.

Lemma put_all_lookup cvs m cv :
  NoDup (varName <$> cvs) -> cv ∈ cvs -> put_all m cvs !! varName cv = Some cv.
Proof.
  revert m. induction cvs as [|cv0 cvs IH]; intros m Hnd Hin.
  { by apply elem_of_nil in Hin. }
  rewrite fmap_cons in Hnd. apply NoDup_cons in Hnd as [Hfresh Hnd].
  simpl. apply elem_of_cons in Hin as [->|Hin].
  - rewrite put_all_other by done. apply lookup_insert_eq.
  - by apply IH.
Qed.

(** Loading the lines of distinct variables, each of which the console holds
    at its default, puts them all in place. *)
Lemma Load_lines_Save_text cvs c0 :
  unicode_ToLower 32%N = 32%N ->
  NoDup (varName <$> cvs) ->
  (forall cv, cv ∈ cvs ->
     saved cv = true /\ ConVar_typed cv /\ token_name (varName cv)
     /\ text_reads_back cv
     /\ variables c0 !! varName cv = Some (Reset cv)) ->
  (Load_lines c0 (Save_text <$> cvs)).1
  = set_variables c0 (put_all (variables c0) cvs).
Proof.
  intros Hsp. revert c0. induction cvs as [|cv cvs IH]; intros c0 Hnd Hok.
  { simpl. by rewrite set_variables_id. }
  rewrite fmap_cons in Hnd. apply NoDup_cons in Hnd as [Hfresh Hnd].
  destruct (Hok cv) as (Hs & Hty & Hname & Hrb & Hreg); [by left|].
  pose proof (exec_Save_text c0 cv Hsp Hs Hty Hname Hrb Hreg) as Hexec.
  rewrite fmap_cons. simpl.
  destruct (exec c0 true (Save_text cv)) as [[c1 calls1] r1].
  simpl in Hexec. subst c1.
  specialize (IH (set_variables c0 (<[varName cv:=cv]> (variables c0))) Hnd).
  destruct (Load_lines _ (Save_text <$> cvs)) as [c2 calls2]. simpl in *.
  rewrite IH; [by destruct c0|].
  intros cv' Hin. destruct (Hok cv') as (?&?&?&?&Hreg'); [by right|].
  repeat (split; [done|]). simpl. rewrite lookup_insert_ne; [done|].
  intros Heq. apply Hfresh. rewrite Heq. by apply list_elem_of_fmap_2.
Qed.

End round_trip_console.

Section round_trip_theorem.
Context `{StdLib}.

Lemma ConVars_elem c cvs cv :
  ConVars c cvs -> cv ∈ cvs <-> exists name, variables c !! name = Some cv.
Proof.
  unfold ConVars. intros ->. rewrite list_elem_of_fmap. split.
  - intros ([k cv'] & -> & Hin). exists k. by apply elem_of_map_to_list.
  - intros [k Hk]. exists (k, cv). split; [done|]. by apply elem_of_map_to_list.
Qed.

Lemma ConVars_names_NoDup c cvs :
  Console_wf c -> ConVars c cvs -> NoDup (varName <$> cvs).
Proof.
  unfold ConVars. intros Hwf ->.
  replace (varName <$> (map_to_list (variables c)).*2)
    with ((map_to_list (variables c)).*1); [apply NoDup_fst_map_to_list|].
  rewrite <- list_fmap_compose. apply list_fmap_ext.
  intros i [k cv] Hi. simpl. symmetry. apply (Hwf k cv).
  apply elem_of_map_to_list. by eapply list_elem_of_lookup_2.
Qed.

Lemma Save_writes cvs fs fs' path :
  Save cvs fs path = (fs', None) ->
  os_Open fs' path = Some (flat_map Save_line cvs).
Proof.
  unfold Save, ioutil_WriteFile, os_Open. case_bool_decide; [done|].
  intros [= <-]. simpl. apply lookup_insert_eq.
Qed.

(** C3, as the code has it.  Let the variables of a console be saved and the
    file be loaded into a console with the same variables at their defaults.
    If every variable that got a line has a name that is one lower-case
    token other than "#", a line that fits the scanner's buffer, and a value
    whose text the executor reads back (any integer; a string that is one
    non-empty line which lower-casing and trimming leave as it is; a float
    that [strconv.ParseFloat] reads back from the text [fmt] printed), then
    after the load every variable has the value it had: the same value, or
    for one without a line a value equal to it under [==]. *)
Theorem Save_then_Load (c c0 : Console) (cvs : list ConVar) (fs fs' : FS)
    (path : gostring) :
  ToLower_keeps_numerals ->
  Console_wf c ->
  ConVars c cvs ->
  (forall cv, cv ∈ cvs -> saved cv = true -> persistable cv) ->
  variables c0 = Reset <$> variables c ->
  Save cvs fs path = (fs', None) ->
  exists c' calls,
    Load c0 fs' path = (c', calls, None)
    /\ forall name cv,
         variables c !! name = Some cv ->
         exists cv',
           variables c' !! name = Some cv'
           /\ Reset cv' = Reset cv
           /\ (value cv' = value cv
               \/ iface_eqb (value cv) (value cv') = true).
Proof.
  intros Hlow Hwf Hcvs Hok Hfresh Hsave.
  set (L := filter (fun cv => saved cv = true) cvs).
  assert (forall cv, cv ∈ L ->
            saved cv = true /\ ConVar_typed cv /\ token_name (varName cv)
            /\ text_reads_back cv
            /\ variables c0 !! varName cv = Some (Reset cv)) as HL.
  { intros cv Hin. apply list_elem_of_filter in Hin as [Hs Hin].
    destruct (Hok cv Hin Hs) as (Hname & _ & Htext).
    apply (ConVars_elem c cvs cv Hcvs) in Hin as [k Hk].
    destruct (Hwf k cv Hk) as [<- Hty].
    repeat (split; [done|]). split; [by apply text_ok_reads_back|].
    by rewrite Hfresh, lookup_fmap, Hk. }
  assert (NoDup (varName <$> L)) as HndL.
  { eapply sublist_NoDup; [by eapply ConVars_names_NoDup|].
    apply fmap_sublist, sublist_filter. }
  assert (Scanner_lines (flat_map Save_line cvs) = Save_text <$> L) as Hscan.
  { apply Scanner_saved_lines. intros cv Hin Hs.
    destruct (Hok cv Hin Hs) as ((Hne & Hns & _) & Hlen & Htext).
    destruct (text_ok_reads_back cv Hlow Hs Htext) as (Hnl & Ht & _).
    repeat (split; [done|]). split; [|done].
    by apply trimmed_app_space. }
  pose proof (Load_lines_Save_text L c0 (Hlow 32%N (or_introl eq_refl)) HndL HL)
    as Hload.
  unfold Load. rewrite (Save_writes _ _ _ _ Hsave), Hscan.
  destruct (Load_lines c0 (Save_text <$> L)) as [c' calls]. simpl in Hload.
  exists c', calls. split; [done|]. subst c'. simpl.
  intros name cv Hcv. destruct (Hwf name cv Hcv) as [<- (_ & _ & Hfunc)].
  assert (cv ∈ cvs) as Hin by (apply (ConVars_elem c cvs cv Hcvs); eauto).
  destruct (saved cv) eqn:Hs.
  - exists cv. rewrite put_all_lookup; [| done | by apply list_elem_of_filter].
    auto.
  - exists (Reset cv). rewrite put_all_other.
    + rewrite Hfresh, lookup_fmap, Hcv. split; [done|]. split; [done|].
      simpl. unfold saved in Hs. apply andb_false_iff in Hs as [Hs|Hs].
      * right. by apply negb_false_iff in Hs.
      * left. symmetry. apply Hfunc. by apply negb_false_iff in Hs.
    + intros Hname. apply list_elem_of_fmap in Hname as (cv2 & Heq & Hin2).
      apply list_elem_of_filter in Hin2 as [Hs2 Hin2].
      apply (ConVars_elem c cvs cv2 Hcvs) in Hin2 as [k2 Hk2].
      destruct (Hwf k2 cv2 Hk2) as [<- _]. rewrite <- Heq in Hk2.
      congruence.
Qed.

End round_trip_theorem.

(** ** Every variable keeps the kind it was declared with *)

Section typed.
Context `{StdLib}.

Lemma NewConVar_typed name kind isfunc desc d f cv :
  NewConVar name kind isfunc desc d f = Returns cv -> ConVar_typed cv.
Proof. intros Hnew. apply NewConVar_Returns in Hnew as (-> & Hk & _). by repeat split. Qed.

Lemma write_typed cv kind v argc :
  ConVar_typed cv -> ConVar_typed (write cv kind v argc).1.1.
Proof.
  intros (Hv & Hd & Hf). pose proof (write_cases cv kind v argc) as Hs.
  destruct (write cv kind v argc) as [[cv' calls] err].
  inversion Hs; subst; simpl; try done.
  repeat split; simpl; [congruence | done | congruence].
Qed.

Lemma Reset_typed cv : ConVar_typed cv -> ConVar_typed (Reset cv).
Proof. intros (Hv & Hd & Hf). by repeat split. Qed.

Lemma NewConsole_wf maxLines level i w e :
  Console_wf (NewConsole maxLines level i w e).
Proof. intros name cv Hcv. simpl in Hcv. by rewrite lookup_empty in Hcv. Qed.

Lemma RegConVar_wf c cv :
  Console_wf c -> ConVar_typed cv -> Console_wf (RegConVar c cv).
Proof.
  intros Hwf Hty name cv' Hcv. simpl in Hcv.
  destruct (decide (varName cv = name)) as [<-|Hne].
  - rewrite lookup_insert_eq in Hcv. by injection Hcv as <-.
  - rewrite lookup_insert_ne in Hcv by done. by apply Hwf.
Qed.

Lemma ResetAllVar_wf c : Console_wf c -> Console_wf (ResetAllVar c).
Proof.
  intros Hwf name cv Hcv. simpl in Hcv. rewrite lookup_fmap in Hcv.
  destruct (variables c !! name) as [cv0|] eqn:H0; [|done].
  injection Hcv as <-. destruct (Hwf name cv0 H0) as [Hn Hty].
  split; [done | by apply Reset_typed].
Qed.

Lemma exec_wf c fromFile cmd :
  Console_wf c -> Console_wf (exec c fromFile cmd).1.1.
Proof.
  intros Hwf. destruct (exec_cases c fromFile cmd) as [e|tok0 cv0 v argc H0 _];
    [done|].
  destruct (Hwf tok0 cv0 H0) as [Hn Hty].
  pose proof (write_typed cv0 (varType cv0) v argc Hty) as Hty'.
  pose proof (write_frame cv0 (varType cv0) v argc) as (Hn' & _).
  unfold exec_after_write.
  destruct (write cv0 (varType cv0) v argc) as [[cv' calls] err].
  simpl in Hty', Hn'.
  assert (Console_wf (set_variables c (<[tok0:=cv']> (variables c)))) as Hgoal.
  { intros name cv Hcv. simpl in Hcv.
    destruct (decide (tok0 = name)) as [<-|Hne].
    - rewrite lookup_insert_eq in Hcv. injection Hcv as <-.
      split; [congruence | done].
    - rewrite lookup_insert_ne in Hcv by done. by apply Hwf. }
  by destruct err.
Qed.

End typed.

(** ** The theorems at work on the example console *)

Lemma error_comes_before_any_effect_witness :
  apply_op cl_width (OpSetString (str "wide"))
  = (cl_width, [], Some (errVarBadType (str "cl_width") reflect.String))
  /\ @exec example_lib example_console false (str "cl_height 10")
     = (example_console, [], (None, Some (errVarNotFound (str "cl_height")))).
Proof.
  destruct (@error_comes_before_any_effect example_lib cl_width
              (OpSetString (str "wide")) example_console false
              (str "cl_height 10")) as [Hop Hexec].
  split.
  - destruct (apply_op cl_width (OpSetString (str "wide")))
      as [[cv' calls] [e|]] eqn:E; [|discriminate E].
    destruct (Hop cv' calls e eq_refl) as (-> & -> & _).
    vm_compute in E. by injection E as <-.
  - destruct (@exec example_lib example_console false (str "cl_height 10"))
      as [[c' calls] [r [e|]]] eqn:E; [|vm_compute in E; discriminate E].
    destruct (Hexec c' calls r e eq_refl) as (-> & -> & ->).
    vm_compute in E. by injection E as <-.
Defined.


Lemma bare_name_is_no_op_witness :
  @exec example_lib example_console false (str " CL_Scale ")
  = (example_console, [], (Some cl_scale, None)).
Proof.
  apply (@bare_name_is_no_op example_lib example_console false
           (str " CL_Scale ") (str "cl_scale") cl_scale).
  - reflexivity.
  - reflexivity.
  - reflexivity.
  - reflexivity.
  - intros _. by eexists.
Defined.

Lemma assignment_is_idempotent_witness :
  let r := @exec example_lib example_console false (str "cl_width 10") in
  r.1.2 = [{| call_fn := 1%nat; call_var := str "cl_width";
              call_old := VInt 640; call_new := VInt 10; call_seen := VInt 10 |}]
  /\ @exec example_lib r.1.1 false (str "cl_width 10") = (r.1.1, [], r.2).
Proof.
  split; [reflexivity|].
  destruct (@assignment_is_idempotent example_lib cl_width example_console
              (str "cl_width 10")) as (_ & _ & Htwice).
  apply (Htwice _ [{| call_fn := 1%nat; call_var := str "cl_width";
                      call_old := VInt 640; call_new := VInt 10;
                      call_seen := VInt 10 |}]
           (Store cl_width (VInt 10))); reflexivity.
Defined.

(** The same assignment of a NaN, twice: the callback runs twice. *)
Lemma NaN_assigned_twice_calls_twice :
  (let '(cv1, calls1, _) := SetFloat64 cl_scale nan in
   let '(cv2, calls2, _) := SetFloat64 cv1 nan in
   value cv1 = VFloat64 nan /\ length (calls1 ++ calls2) = 2%nat)
  /\ length (@ExecCmds example_lib example_console
               [str "cl_scale nan"; str "cl_scale nan"]).2 = 2%nat.
Proof. split; [vm_compute; split; reflexivity | reflexivity]. Qed.


(** A title with a capital comes back in lower case, and an empty title does
    not come back at all. *)
Lemma Save_then_Load_changes_strings :
  (let c := titled_console in
   let cvs := (map_to_list (variables c)).*2 in
   let fs' := (@Save example_lib cvs empty_fs (str "convars.ini")).1 in
   let c' := (@Load example_lib example_console fs' (str "convars.ini")).1.1 in
   fs_files fs' !! str "convars.ini" = Some (str "cl_title Hello" ++ [10%N])
   /\ value <$> variables c !! str "cl_title" = Some (VString (str "Hello"))
   /\ value <$> variables c' !! str "cl_title" = Some (VString (str "hello")))
  /\ (let c := untitled_console in
      let cvs := (map_to_list (variables c)).*2 in
      let fs' := (@Save example_lib cvs empty_fs (str "convars.ini")).1 in
      let c' := (@Load example_lib example_console fs' (str "convars.ini")).1.1 in
      fs_files fs' !! str "convars.ini" = Some (str "cl_title " ++ [10%N])
      /\ value <$> variables c !! str "cl_title" = Some (VString [])
      /\ value <$> variables c' !! str "cl_title" = Some (VString (str "game"))).
Proof. vm_compute. repeat split. Qed.

Lemma ascii_ToLower_keeps_numerals : @ToLower_keeps_numerals example_lib.
Proof.
  intros r [->|[->|Hd]]; [reflexivity | reflexivity |].
  simpl. unfold ascii_ToLower, is_digit in *.
  apply andb_true_iff in Hd as [_ Hd]. apply N.leb_le in Hd.
  destruct (N.leb_spec 65 r); [lia | reflexivity].
Defined.

Lemma played_console_wf : Console_wf played_console.
Proof.
  unfold played_console, example_console.
  repeat apply RegConVar_wf; try apply NewConsole_wf;
    (split; [reflexivity | split; [reflexivity | intros Hf; discriminate Hf]])
    || (split; [reflexivity | split; reflexivity]).
Defined.

Lemma Save_then_Load_witness :
  let cvs := (map_to_list (variables played_console)).*2 in
  let fs' := (@Save example_lib cvs empty_fs (str "convars.ini")).1 in
  let c' := (@Load example_lib example_console fs' (str "convars.ini")).1.1 in
  value <$> variables c' !! str "cl_title" = Some (VString (str "hello world")).
Proof.
  intros cvs fs' c'.
  destruct (@Save_then_Load example_lib played_console example_console cvs
              empty_fs fs' (str "convars.ini")) as (c1 & calls & HLoad & Hvals).
  - exact ascii_ToLower_keeps_numerals.
  - exact played_console_wf.
  - unfold ConVars. reflexivity.
  - apply (proj1 (Forall_forall
                    (fun cv => saved cv = true -> @persistable example_lib cv) cvs)).
    assert (exists l, cvs = l) as [l Hl] by by eexists.
    rewrite Hl. vm_compute in Hl. subst l.
    repeat apply Forall_cons_2; [..|apply Forall_nil_2]; intros Hs;
      try (by vm_compute in Hs).
    all: unfold persistable, token_name, text_ok, no_space, trimmed;
      cbn [value varName varType]; by_evaluation.
  - by vm_compute.
  - by vm_compute.
  - destruct (Hvals (str "cl_title")
                (Store cl_title (VString (str "hello world"))) eq_refl)
      as (cv' & Hcv' & _ & Hval).
    subst c'. rewrite HLoad. cbn [fst]. rewrite Hcv'. cbn [fmap option_fmap option_map].
    f_equal. destruct Hval as [Hval|Hval]; [exact Hval|].
    destruct (value cv') as [| | | |s]; try discriminate Hval.
    apply bool_decide_eq_true_1 in Hval. by rewrite <- Hval.
Defined.

(** * More of the package *)

(** ** Registering and finding variables *)

Section registry.
Context `{StdLib}.

(** X1.  A variable made by [NewConVar] and registered is found under its
    name in any spelling that lower-cases to the same text. *)
Theorem registered_found_in_any_case (c : Console) (name name' : gostring)
    (kind : reflect.Kind) (isfunc : bool) (desc : gostring) (d : Value)
    (f : ValSetFunc) (cv : ConVar) :
  NewConVar name kind isfunc desc d f = Returns cv ->
  strings_ToLower name' = strings_ToLower name ->
  Console_ConVar (RegConVar c cv) name' = Some cv.
Proof.
  intros Hnew Hsame. apply NewConVar_Returns in Hnew as (-> & _ & _).
  unfold Console_ConVar. rewrite Hsame. simpl. apply lookup_insert_eq.
Qed.

(** X2.  Registering a variable leaves the variables of other names as they
    are, and a variable registered under a name already taken replaces the
    one that was there. *)
Theorem RegConVar_replaces (c : Console) (cv1 cv2 : ConVar) :
  (forall name, name <> varName cv2 ->
     variables (RegConVar c cv2) !! name = variables c !! name)
  /\ (varName cv1 = varName cv2 ->
      RegConVar (RegConVar c cv1) cv2 = RegConVar c cv2).
Proof.
  split.
  - intros name Hne. simpl. by rewrite lookup_insert_ne.
  - intros Hname. unfold RegConVar, set_variables. simpl.
    by rewrite Hname, insert_insert_eq.
Qed.

(** X3.  [NewConVar] panics exactly when the default is nil, is not of the
    kind given, or the kind is none of Int, Float64 and String; otherwise
    it returns a variable with the lower-cased name that holds its default
    and is of the kind given. *)
Theorem NewConVar_panics_iff (name : gostring) (kind : reflect.Kind)
    (isfunc : bool) (desc : gostring) (d : Value) (f : ValSetFunc) :
  (NewConVar name kind isfunc desc d f = Panics
   <-> (TypeOf_Kind d <> Some kind \/ supported kind = false))
  /\ (forall cv,
        NewConVar name kind isfunc desc d f = Returns cv ->
        ConVar_Name cv = strings_ToLower name /\ ConVar_Type cv = kind
        /\ ConVar_Desc cv = desc /\ IsFunc cv = isfunc
        /\ Interface cv = (d, None) /\ valDefault cv = d
        /\ ConVar_typed cv).
Proof.
  split.
  - unfold NewConVar. destruct (TypeOf_Kind d) as [k|] eqn:Hk.
    + destruct (reflect.eqb kind k) eqn:E; simpl.
      * apply reflect_eqb_eq in E as <-.
        destruct (supported kind); simpl; split; try done.
        -- intros [Hne|Hs]; [by destruct Hne | done].
        -- intros _. by right.
      * split; [intros _|done]. left. intros [= ->].
        by rewrite (proj2 (reflect_eqb_eq kind kind)) in E.
    + split; [intros _|done]. by left.
  - intros cv Hnew. apply NewConVar_Returns in Hnew as (-> & Hk & Hs).
    by repeat split.
Qed.

End registry.

(** ** What commands leave alone *)

Lemma Reset_write cv kind v argc : Reset (write cv kind v argc).1.1 = Reset cv.
Proof.
  pose proof (write_cases cv kind v argc) as Hs.
  destruct (write cv kind v argc) as [[cv' calls] err].
  by inversion Hs.
Qed.

Lemma write_calls_at_most_one cv kind v argc :
  (length (write cv kind v argc).1.2 <= 1)%nat.
Proof.
  pose proof (write_cases cv kind v argc) as Hs.
  destruct (write cv kind v argc) as [[cv' calls] err].
  inversion Hs; simpl; lia.
Qed.

Lemma same_log_refl c : same_log c c.
Proof. by repeat split. Qed.

Lemma same_log_trans c1 c2 c3 : same_log c1 c2 -> same_log c2 c3 -> same_log c1 c3.
Proof.
  intros (?&?&?&?&?&?) (?&?&?&?&?&?). repeat split; congruence.
Qed.

Lemma same_log_set_variables c m : same_log c (set_variables c m).
Proof. by repeat split. Qed.

Section frame.
Context `{StdLib}.

Lemma exec_frame c fromFile cmd :
  declarations (exec c fromFile cmd).1.1 = declarations c
  /\ same_log c (exec c fromFile cmd).1.1
  /\ (length (exec c fromFile cmd).1.2 <= 1)%nat.
Proof.
  destruct (exec_cases c fromFile cmd) as [e|tok0 cv v argc Hcv _].
  { simpl. split; [done|]. split; [apply same_log_refl | lia]. }
  pose proof (Reset_write cv (varType cv) v argc) as Hr.
  pose proof (write_calls_at_most_one cv (varType cv) v argc) as Hl.
  unfold exec_after_write.
  destruct (write cv (varType cv) v argc) as [[cv' calls] err].
  simpl in Hr, Hl.
  assert (declarations (set_variables c (<[tok0:=cv']> (variables c)))
          = declarations c) as Hd.
  { unfold declarations. simpl. rewrite fmap_insert, Hr.
    apply insert_id. by rewrite lookup_fmap, Hcv. }
  destruct err; simpl; (split; [done|]); (split; [apply same_log_set_variables | done]).
Qed.

Lemma ExecCmds_frame cmds c :
  declarations (ExecCmds c cmds).1 = declarations c
  /\ same_log c (ExecCmds c cmds).1.
Proof.
  revert c. induction cmds as [|cmd cmds IH]; intros c; simpl.
  { split; [done | apply same_log_refl]. }
  destruct (exec_frame c false cmd) as (Hd & Hl & _). unfold ExecCmd.
  destruct (exec c false cmd) as [[c1 calls1] r1]. simpl in Hd, Hl.
  destruct (IH c1) as [Hd' Hl'].
  destruct (ExecCmds c1 cmds) as [c2 calls2]. simpl in *.
  split; [congruence | by eapply same_log_trans].
Qed.

Lemma Load_lines_frame lines c :
  declarations (Load_lines c lines).1 = declarations c
  /\ same_log c (Load_lines c lines).1.
Proof.
  revert c. induction lines as [|line lines IH]; intros c; simpl.
  { split; [done | apply same_log_refl]. }
  destruct (exec_frame c true line) as (Hd & Hl & _).
  destruct (exec c true line) as [[c1 calls1] r1]. simpl in Hd, Hl.
  destruct (IH c1) as [Hd' Hl'].
  destruct (Load_lines c1 lines) as [c2 calls2]. simpl in *.
  split; [congruence | by eapply same_log_trans].
Qed.

Lemma Load_frame c fs path :
  declarations (Load c fs path).1.1 = declarations c
  /\ same_log c (Load c fs path).1.1.
Proof.
  unfold Load. destruct (os_Open fs path) as [data|].
  - pose proof (Load_lines_frame (Scanner_lines data) c) as Hf.
    by destruct (Load_lines c (Scanner_lines data)).
  - split; [done | apply same_log_refl].
Qed.


(** X5.  [ResetAllVar] puts every variable at its default and touches nothing
    else; done twice it is as done once, and after any commands and any load
    it gives the variables it would have given before them. *)
Theorem ResetAllVar_undoes_commands (c : Console) (cmds : list gostring)
    (fs : FS) (path : gostring) :
  (forall name cv,
     variables (ResetAllVar c) !! name = Some cv -> value cv = valDefault cv)
  /\ declarations (ResetAllVar c) = declarations c
  /\ same_log c (ResetAllVar c)
  /\ ResetAllVar (ResetAllVar c) = ResetAllVar c
  /\ variables (ResetAllVar (ExecCmds c cmds).1) = variables (ResetAllVar c)
  /\ variables (ResetAllVar (Load c fs path).1.1) = variables (ResetAllVar c).
Proof.
  split; [|split; [|split; [|split; [|split]]]].
  - intros name cv Hcv. simpl in Hcv. rewrite lookup_fmap in Hcv.
    destruct (variables c !! name) as [cv0|]; [|done]. by injection Hcv as <-.
  - unfold declarations. simpl. rewrite <- map_fmap_compose.
    apply map_fmap_ext. by intros ? [].
  - apply same_log_set_variables.
  - unfold ResetAllVar, set_variables. simpl. f_equal.
    rewrite <- map_fmap_compose. apply map_fmap_ext. by intros ? [].
  - apply (ExecCmds_frame cmds c).
  - apply (Load_frame c fs path).
Qed.

(** X6.  The kind of a variable is kept: if every variable of a console sits
    under its own name, holds a value and a default of its declared kind,
    and holds its default when it is a command, this is still so after a
    variable made by [NewConVar] is registered, after any commands, after a
    load and after [ResetAllVar]. *)
Theorem kinds_are_kept (c : Console) (cmds : list gostring) (fs : FS)
    (path name : gostring) (kind : reflect.Kind) (isfunc : bool)
    (desc : gostring) (d : Value) (f : ValSetFunc) :
  Console_wf c ->
  Console_wf (ExecCmds c cmds).1
  /\ Console_wf (Load c fs path).1.1
  /\ Console_wf (ResetAllVar c)
  /\ (forall cv,
        NewConVar name kind isfunc desc d f = Returns cv ->
        Console_wf (RegConVar c cv)).
Proof.
  intros Hwf. split; [|split; [|split]].
  - revert c Hwf. induction cmds as [|cmd cmds IH]; intros c Hwf; [done|].
    simpl. pose proof (exec_wf c false cmd Hwf) as H1. unfold ExecCmd.
    destruct (exec c false cmd) as [[c1 calls1] r1].
    specialize (IH c1 H1). by destruct (ExecCmds c1 cmds).
  - unfold Load. destruct (os_Open fs path) as [data|]; [|done].
    assert (forall lines c0, Console_wf c0 -> Console_wf (Load_lines c0 lines).1)
      as Hlines.
    { induction lines as [|line lines IH]; intros c0 H0; [done|].
      simpl. pose proof (exec_wf c0 true line H0) as H1.
      destruct (exec c0 true line) as [[c1 calls1] r1].
      specialize (IH c1 H1). by destruct (Load_lines c1 lines). }
    specialize (Hlines (Scanner_lines data) c Hwf).
    by destruct (Load_lines c (Scanner_lines data)).
  - by apply ResetAllVar_wf.
  - intros cv Hnew. apply RegConVar_wf; [done|]. by eapply NewConVar_typed.
Qed.

End frame.

(** ** Reading a variable *)

(** X7.  On a variable whose value is of its declared kind no accessor
    panics: the accessor of the kind returns the value and no error ([Bool]
    reading an Int as "is 1"), and each of the others returns the zero value
    and the bad-type error. *)
Theorem accessors_follow_the_kind (cv : ConVar) :
  ConVar_typed cv ->
  match varType cv with
  | reflect.Int =>
      exists n, value cv = VInt n
        /\ ConVar_Int cv = Returns (n, None)
        /\ ConVar_Bool cv = Returns (n =? 1, None)
        /\ ConVar_Float64 cv
           = Returns (0%float, Some (errVarBadType (varName cv) reflect.Float64))
        /\ ConVar_String cv
           = Returns ([], Some (errVarBadType (varName cv) reflect.String))
  | reflect.Float64 =>
      exists f, value cv = VFloat64 f
        /\ ConVar_Float64 cv = Returns (f, None)
        /\ ConVar_Int cv = Returns (0, Some (errVarBadType (varName cv) reflect.Int))
        /\ ConVar_Bool cv
           = Returns (false, Some (errVarBadType (varName cv) reflect.Int))
        /\ ConVar_String cv
           = Returns ([], Some (errVarBadType (varName cv) reflect.String))
  | reflect.String =>
      exists s, value cv = VString s
        /\ ConVar_String cv = Returns (s, None)
        /\ ConVar_Int cv = Returns (0, Some (errVarBadType (varName cv) reflect.Int))
        /\ ConVar_Bool cv
           = Returns (false, Some (errVarBadType (varName cv) reflect.Int))
        /\ ConVar_Float64 cv
           = Returns (0%float, Some (errVarBadType (varName cv) reflect.Float64))
  | reflect.Bool =>
      exists b, value cv = VBool b
        /\ ConVar_Bool cv
           = Returns (false, Some (errVarBadType (varName cv) reflect.Int))
        /\ ConVar_Int cv = Returns (0, Some (errVarBadType (varName cv) reflect.Int))
  | reflect.Invalid => False
  end.
Proof.
  intros (Hv & _ & _).
  unfold ConVar_Int, ConVar_Bool, ConVar_Float64, ConVar_String.
  destruct (value cv) as [|b|n|f|s]; simpl in Hv; [done| | | |];
    injection Hv as <-; eauto 10.
Qed.

(** X8.  A setter of the kind of a variable that is no command returns no
    error, and the accessor then returns what was set: the very value for
    [SetInt], [SetBool] and [SetString], and for [SetFloat64] the float set
    or the one already there when [==] finds the two equal. *)
Theorem accessor_after_setter (cv : ConVar) (n : Z) (b : bool) (s : gostring)
    (f : float) :
  ConVar_typed cv -> isFunc cv = false ->
  (varType cv = reflect.Int ->
     (SetInt cv n).2 = None
     /\ ConVar_Int (SetInt cv n).1.1 = Returns (n, None)
     /\ (SetBool cv b).2 = None
     /\ ConVar_Bool (SetBool cv b).1.1 = Returns (b, None))
  /\ (varType cv = reflect.String ->
        (SetString cv s).2 = None
        /\ ConVar_String (SetString cv s).1.1 = Returns (s, None))
  /\ (varType cv = reflect.Float64 ->
        (SetFloat64 cv f).2 = None
        /\ exists f',
             ConVar_Float64 (SetFloat64 cv f).1.1 = Returns (f', None)
             /\ (f' = f \/ PrimFloat.eqb f' f = true)).
Proof.
  intros (Hv & _ & _) Hf.
  assert (forall kind v,
            varType cv = kind -> TypeOf_Kind v = Some kind ->
            (write cv kind v 2).2 = None
            /\ (value (write cv kind v 2).1.1 = v
                \/ (value (write cv kind v 2).1.1 = value cv
                    /\ iface_eqb (value cv) v = true))) as Hw.
  { intros kind v Hk Hkv. pose proof (write_cases cv kind v 2) as Hs.
    destruct (write cv kind v 2) as [[cv' calls] err].
    inversion Hs; subst; simpl in *; try congruence; try lia; try done; auto. }
  split; [|split].
  - intros Hk. rewrite Hk in Hv.
    destruct (value cv) as [| |old| |] eqn:Hval; try done.
    unfold SetInt, SetBool, ConVar_Int, ConVar_Bool.
    destruct (Hw reflect.Int (VInt n) Hk eq_refl) as [-> [->|[-> He]]];
      (split; [done|]); (split; [simpl in *; try done|]).
    all: try (apply Z.eqb_eq in He; by subst).
    all: destruct b.
    all: try (destruct (Hw reflect.Int (VInt 1) Hk eq_refl) as [-> [->|[-> He']]];
              split; try done; simpl in He'; apply Z.eqb_eq in He'; by subst).
    all: destruct (Hw reflect.Int (VInt 0) Hk eq_refl) as [-> [->|[-> He']]];
      split; try done; simpl in He'; apply Z.eqb_eq in He'; by subst.
  - intros Hk. rewrite Hk in Hv.
    destruct (value cv) as [| | | |old] eqn:Hval; try done.
    unfold SetString, ConVar_String.
    destruct (Hw reflect.String (VString s) Hk eq_refl) as [-> [->|[-> He]]];
      (split; [done|]); [done|].
    simpl in He. apply bool_decide_eq_true_1 in He. by subst.
  - intros Hk. rewrite Hk in Hv.
    destruct (value cv) as [| | |old|] eqn:Hval; try done.
    unfold SetFloat64, ConVar_Float64.
    destruct (Hw reflect.Float64 (VFloat64 f) Hk eq_refl) as [-> [->|[-> He]]];
      (split; [done|]).
    + exists f. auto.
    + exists old. auto.
Qed.

(** X9.  [Reset] gives the variable as it was declared, whatever writes,
    setters and resets came before, and it calls no callback (it returns
    nothing but the variable). *)
Theorem Reset_undoes_operations (cv : ConVar) (ops : list ConVarOp) :
  Reset (apply_ops cv ops).1 = Reset cv
  /\ value (Reset (apply_ops cv ops).1) = valDefault cv.
Proof.
  assert (Reset (apply_ops cv ops).1 = Reset cv) as Hr.
  { revert cv. induction ops as [|op ops IH]; intros cv; [done|]. simpl.
    assert (Reset (apply_op cv op).1.1 = Reset cv) as Hop.
    { destruct op as [k v a|[]| | | |]; simpl; try apply Reset_write.
      by destruct cv. }
    destruct (apply_op cv op) as [[cv1 calls1] e1]. simpl in Hop.
    specialize (IH cv1). destruct (apply_ops cv1 ops) as [cv2 calls2].
    simpl in *. congruence. }
  split; [done|]. by rewrite Hr.
Qed.

(** ** Tokens *)

Lemma TrimLeft_space_split s :
  exists sp, all_space sp /\ s = sp ++ TrimLeft_space s.
Proof.
  induction s as [|r s (sp & Hsp & IH)]; [exists []; split; [constructor | done]|]. simpl.
  destruct (unicode_IsSpace r) eqn:Hr.
  - exists (r :: sp). split; [by constructor|]. simpl. by rewrite <- IH.
  - exists []. split; [constructor | done].
Qed.

Lemma TrimRight_space_split s :
  exists sp, all_space sp /\ s = TrimRight_space s ++ sp.
Proof.
  unfold TrimRight_space. destruct (TrimLeft_space_split (rev s)) as (sp & Hsp & Hs).
  exists (rev sp). split; [by apply Forall_rev|].
  rewrite <- rev_app_distr, <- Hs. by rewrite rev_involutive.
Qed.

Lemma Fields_from_spaces_nil sp : all_space sp -> Fields_from [] sp = [].
Proof. induction 1 as [|r sp Hr _ IH]; simpl; [done|]. by rewrite Hr. Qed.

Lemma Fields_from_app_spaces s sp cur :
  all_space sp -> Fields_from cur (s ++ sp) = Fields_from cur s.
Proof.
  intros Hsp. revert cur. induction s as [|r s IH]; intros cur; simpl.
  - destruct Hsp as [|a sp Ha Hsp]; [done|]. simpl. rewrite Ha.
    rewrite (Fields_from_spaces_nil sp Hsp). by destruct cur.
  - rewrite !IH. done.
Qed.

Lemma Fields_from_spaces_app sp s :
  all_space sp -> Fields_from [] (sp ++ s) = Fields_from [] s.
Proof. induction 1 as [|r sp Hr _ IH]; simpl; [done|]. by rewrite Hr. Qed.

(** Trimming a text does not change its tokens. *)
Lemma Fields_TrimSpace s : strings_Fields (strings_TrimSpace s) = strings_Fields s.
Proof.
  unfold strings_Fields, strings_TrimSpace.
  destruct (TrimLeft_space_split s) as (sp1 & Hsp1 & Hs1).
  destruct (TrimRight_space_split (TrimLeft_space s)) as (sp2 & Hsp2 & Hs2).
  rewrite Hs1 at 2. rewrite Fields_from_spaces_app by done.
  rewrite Hs2 at 2. by rewrite Fields_from_app_spaces.
Qed.

Lemma TrimLeft_space_spaces_app sp s :
  all_space sp -> TrimLeft_space (sp ++ s) = TrimLeft_space s.
Proof. induction 1 as [|r sp Hr _ IH]; simpl; [done|]. by rewrite Hr. Qed.

Lemma TrimRight_space_app_spaces y sp :
  all_space sp ->
  match rev y with [] => False | b :: _ => unicode_IsSpace b = false end ->
  TrimRight_space (y ++ sp) = y.
Proof.
  intros Hsp Hy. unfold TrimRight_space. rewrite rev_app_distr.
  rewrite TrimLeft_space_spaces_app by by apply Forall_rev.
  destruct (rev y) as [|b l] eqn:Hrev; [done|].
  rewrite TrimLeft_space_head by done. rewrite <- Hrev. apply rev_involutive.
Qed.

Lemma TrimLeft_space_result s :
  match TrimLeft_space s with [] => True | a :: _ => unicode_IsSpace a = false end.
Proof.
  induction s as [|r s IH]; simpl; [done|].
  destruct (unicode_IsSpace r) eqn:Hr; [done|]. done.
Qed.

(** A text is white space, what [strings.TrimSpace] keeps of it, and white
    space; what is kept, if anything, starts and ends with a rune that is
    not white space. *)
Lemma TrimSpace_split u :
  exists sp1 sp2,
    all_space sp1 /\ all_space sp2
    /\ u = sp1 ++ strings_TrimSpace u ++ sp2
    /\ (strings_TrimSpace u <> [] -> trimmed (strings_TrimSpace u)).
Proof.
  destruct (TrimLeft_space_split u) as (sp1 & Hsp1 & Hu).
  destruct (TrimRight_space_split (TrimLeft_space u)) as (sp2 & Hsp2 & Hl).
  exists sp1, sp2. split; [done|]. split; [done|]. split.
  { unfold strings_TrimSpace. by rewrite <- Hl. }
  intros Hne. unfold strings_TrimSpace in *. split.
  - pose proof (TrimLeft_space_result u) as Hfirst.
    destruct (TrimRight_space (TrimLeft_space u)) as [|a core] eqn:Hcore; [done|].
    rewrite Hl in Hfirst. simpl in Hfirst. done.
  - unfold TrimRight_space in *. rewrite rev_involutive.
    pose proof (TrimLeft_space_result (rev (TrimLeft_space u))) as Hlast.
    destruct (TrimLeft_space (rev (TrimLeft_space u))) as [|b l]; [done|]. done.
Qed.

Lemma write_argc cv kind v argc : 2 <= argc -> write cv kind v argc = write cv kind v 2.
Proof.
  intros Ha. unfold write.
  destruct (Z.ltb_spec argc 2); [lia|]. done.
Qed.

Section commands.
Context `{StdLib}.

(** X10.  A command with no token, and one whose first token is "#", does
    nothing and returns neither variable nor error; one whose first token is
    anything else that names no variable returns the not-found error with
    that token and does nothing. *)
Theorem exec_without_variable (c : Console) (fromFile : bool) (cmd : gostring) :
  (strings_Fields (strings_ToLower cmd) = [] ->
     exec c fromFile cmd = (c, [], (None, None)))
  /\ (forall toks,
        strings_Fields (strings_ToLower cmd) = str "#" :: toks ->
        exec c fromFile cmd = (c, [], (None, None)))
  /\ (forall tok0 toks,
        strings_Fields (strings_ToLower cmd) = tok0 :: toks ->
        tok0 <> str "#" -> variables c !! tok0 = None ->
        exec c fromFile cmd = (c, [], (None, Some (errVarNotFound tok0)))).
Proof.
  unfold exec. rewrite Fields_TrimSpace. split; [|split].
  - by intros ->.
  - intros toks ->. by rewrite bool_decide_eq_true_2.
  - intros tok0 toks -> Hne Hnone.
    by rewrite bool_decide_eq_false_2, Hnone.
Qed.

(** The command line of an assignment as [exec] cuts it up. *)
Lemma exec_cuts_assignment (cmd name u : gostring) (sp : rune) :
  strings_ToLower cmd = name ++ sp :: u ->
  unicode_IsSpace sp = true -> name <> [] -> no_space name ->
  strings_TrimSpace u <> [] ->
  exists rest tok toks,
    strings_TrimSpace (strings_ToLower cmd) = name ++ rest
    /\ strings_Fields (name ++ rest) = name :: tok :: toks
    /\ strings_TrimSpace rest = strings_TrimSpace u.
Proof.
  intros Hlow Hsp Hname Hns Hval.
  destruct (TrimSpace_split u) as (sp1 & sp2 & Hsp1 & Hsp2 & Hu & Htr).
  specialize (Htr Hval). set (core := strings_TrimSpace u) in *.
  exists (sp :: sp1 ++ core).
  assert (strings_TrimSpace (strings_ToLower cmd) = name ++ sp :: sp1 ++ core)
    as Hcmd.
  { rewrite Hlow, Hu. unfold strings_TrimSpace.
    destruct name as [|a name]; [done|]. simpl.
    apply Forall_cons in Hns as [Ha Hns]. rewrite Ha.
    replace (a :: name ++ sp :: sp1 ++ core ++ sp2)
      with ((a :: name ++ sp :: sp1 ++ core) ++ sp2)
      by (simpl; rewrite <- !app_assoc; simpl; by rewrite <- !app_assoc).
    apply TrimRight_space_app_spaces; [done|].
    replace (a :: name ++ sp :: sp1 ++ core)
      with ((a :: name ++ sp :: sp1) ++ core)
      by (simpl; rewrite <- !app_assoc; simpl; done).
    rewrite rev_app_distr. destruct Htr as [_ Hlast].
    by destruct (rev core). }
  assert (exists tok toks, strings_Fields core = tok :: toks) as (tok & toks & Hcore).
  { destruct Htr as [Hfirst _]. unfold strings_Fields.
    destruct core as [|a core']; [done|]. simpl. rewrite Hfirst.
    destruct (Fields_from [a] core') as [|tok toks] eqn:HF; [|eauto].
    by apply Fields_from_nonempty in HF. }
  exists tok, toks. split; [done|]. split.
  - unfold strings_Fields in *.
    rewrite Fields_from_token; [|done|done|by destruct name].
    simpl. by rewrite Fields_from_spaces_app, Hcore.
  - unfold strings_TrimSpace at 1.
    replace (sp :: sp1 ++ core) with ((sp :: sp1) ++ core) by done.
    rewrite TrimLeft_space_spaces_app by by constructor.
    by apply trimmed_TrimSpace in Htr.
Qed.

(** A command with a value on a registered variable is one conversion and,
    if that succeeds, one [write] with the value converted. *)
Lemma exec_on_value (c : Console) (fromFile : bool) (cmd name u : gostring)
    (sp : rune) (cv : ConVar) :
  strings_ToLower cmd = name ++ sp :: u ->
  unicode_IsSpace sp = true -> name <> [] -> no_space name ->
  name <> str "#" ->
  strings_TrimSpace u <> [] ->
  variables c !! name = Some cv -> fromFile && isFunc cv = false ->
  exec c fromFile cmd
  = match parse_value (varType cv) (strings_TrimSpace u)
            (32%N :: strings_TrimSpace u) with
    | (_, true) =>
        (c, [],
         (None, Some (errBadStringConversion (strings_TrimSpace u) (varType cv))))
    | (v, false) => exec_after_write c name (write cv (varType cv) v 2)
    end.
Proof.
  intros Hlow Hsp Hname Hns Hhash Hval Hcv Hskip.
  set (valStr := strings_TrimSpace u).
  destruct (exec_cuts_assignment cmd name u sp Hlow Hsp Hname Hns Hval)
    as (rest & tok & toks & Hcmd & Hfields & Hrest).
  assert (trimmed valStr) as Htr.
  { destruct (TrimSpace_split u) as (_ & _ & _ & _ & _ & Htr). by apply Htr. }
  assert (parse_value (varType cv) (strings_TrimSpace rest) rest
          = parse_value (varType cv) valStr (32%N :: valStr)) as Hparse.
  { unfold parse_value. rewrite Hrest. fold valStr.
    destruct (varType cv); try done.
    by rewrite TrimSpace_space_text. }
  unfold exec. rewrite Hcmd, Hfields, bool_decide_eq_false_2 by done.
  rewrite Hcv, Hskip.
  replace (Z.of_nat (length (name :: tok :: toks)) =? 1) with false
    by (symmetry; apply Z.eqb_neq; simpl length; lia).
  rewrite drop_app_length, Hparse.
  destruct (parse_value (varType cv) valStr (32%N :: valStr)) as [v [|]] eqn:Hp.
  { by rewrite Hrest. }
  rewrite write_argc by (simpl length; lia). unfold exec_after_write.
  by destruct (write cv (varType cv) v 2) as [[cv' calls] [e|]].
Qed.

(** X11.  A command "name value" on a registered variable of a supported
    kind that is no command: the value is what [strings.TrimSpace] keeps of
    the lower-cased text after the name.  If it does not convert to the kind
    of the variable [exec] returns the conversion error and changes nothing.
    If it does, [exec] returns no error and the variable then holds the
    value converted (or still the value it held, when [==] finds the two
    equal); for a String variable this is the lower-cased, trimmed text
    itself. *)
Theorem exec_assigns (c : Console) (fromFile : bool) (cmd name u : gostring)
    (sp : rune) (cv : ConVar) :
  strings_ToLower cmd = name ++ sp :: u ->
  unicode_IsSpace sp = true -> name <> [] -> no_space name ->
  name <> str "#" ->
  strings_TrimSpace u <> [] ->
  variables c !! name = Some cv -> isFunc cv = false ->
  supported (varType cv) = true ->
  let valStr := strings_TrimSpace u in
  match parse_value (varType cv) valStr (32%N :: valStr) with
  | (_, true) =>
      exec c fromFile cmd
      = (c, [], (None, Some (errBadStringConversion valStr (varType cv))))
  | (v, false) =>
      exists cv',
        (exec c fromFile cmd).2 = (Some cv', None)
        /\ variables (exec c fromFile cmd).1.1 !! name = Some cv'
        /\ (value cv' = v
            \/ (value cv' = value cv /\ iface_eqb (value cv) v = true))
        /\ (varType cv = reflect.String -> value cv' = VString valStr)
  end.
Proof.
  intros Hlow Hsp Hname Hns Hhash Hval Hcv Hf Hty valStr.
  assert (trimmed valStr) as Htr.
  { destruct (TrimSpace_split u) as (_ & _ & _ & _ & _ & Htr). by apply Htr. }
  rewrite (exec_on_value c fromFile cmd name u sp cv) by
    (try done; by rewrite Hf, andb_false_r).
  fold valStr.
  destruct (parse_value (varType cv) valStr (32%N :: valStr)) as [v [|]] eqn:Hp;
    [done|].
  assert (TypeOf_Kind v = Some (varType cv)) as Hkv.
  { unfold parse_value in Hp.
    destruct (varType cv) eqn:Hk; try done;
      repeat case_match; simplify_eq; done. }
  pose proof (write_cases cv (varType cv) v 2) as Hs. unfold exec_after_write.
  destruct (write cv (varType cv) v 2) as [[cv' calls] err].
  inversion Hs; subst; try congruence; try lia; try (by simpl in Hkv).
  - exists cv'. simpl. rewrite lookup_insert_eq. split; [done|]. split; [done|].
    split; [auto|]. intros Hk. unfold parse_value in Hp. rewrite Hk in Hp.
    rewrite TrimSpace_space_text in Hp by done. injection Hp as <-.
    match goal with He : iface_eqb _ _ = true |- _ =>
      destruct (value cv'); simpl in He; try done;
      apply bool_decide_eq_true_1 in He; by subst end.
  - eexists. simpl. rewrite lookup_insert_eq. split; [done|]. split; [done|].
    split; [auto|]. intros Hk. unfold parse_value in Hp. rewrite Hk in Hp.
    rewrite TrimSpace_space_text in Hp by done. by injection Hp as <-.
Qed.

Lemma Fields_from_no_space tok cur :
  no_space tok -> cur ++ tok <> [] -> Fields_from cur tok = [rev cur ++ tok].
Proof.
  intros Hns. revert cur. induction Hns as [|r tok Hr Hns IH]; intros cur Hne.
  - simpl. rewrite app_nil_r in *. by destruct cur.
  - simpl. rewrite Hr, IH by done. simpl. by rewrite <- app_assoc.
Qed.

(** A command that is the name of a registered variable and nothing else is
    one [write] with an argument count of one. *)
Lemma exec_on_bare_name (c : Console) (fromFile : bool) (cmd name : gostring)
    (cv : ConVar) :
  strings_TrimSpace (strings_ToLower cmd) = name ->
  name <> [] -> no_space name -> name <> str "#" ->
  variables c !! name = Some cv -> fromFile && isFunc cv = false ->
  exec c fromFile cmd
  = match parse_value (varType cv) (str "0") [] with
    | (_, true) =>
        (c, [], (None, Some (errBadStringConversion (str "0") (varType cv))))
    | (v, false) => exec_after_write c name (write cv (varType cv) v 1)
    end.
Proof.
  intros Hcmd Hname Hns Hhash Hcv Hskip. unfold exec. rewrite Hcmd.
  unfold strings_Fields. rewrite Fields_from_no_space by done. simpl rev.
  rewrite app_nil_l, bool_decide_eq_false_2 by done. rewrite Hcv, Hskip.
  change (Z.of_nat (length [name]) =? 1) with true. cbn iota.
  rewrite drop_all.
  destruct (parse_value (varType cv) (str "0") []) as [v [|]]; [done|].
  change (Z.of_nat (length [name])) with 1. unfold exec_after_write.
  by destruct (write cv (varType cv) v 1) as [[cv' calls] [e|]].
Qed.

End commands.

(** ** Files and commands *)

Section files.
Context `{StdLib}.

Lemma declarations_lookup c c' name cv :
  declarations c' = declarations c -> variables c !! name = Some cv ->
  exists cv', variables c' !! name = Some cv' /\ Reset cv' = Reset cv.
Proof.
  intros Hd Hcv. apply (f_equal (fun m => m !! name)) in Hd.
  unfold declarations in Hd. rewrite !lookup_fmap, Hcv in Hd.
  destruct (variables c' !! name) as [cv'|]; [|done].
  exists cv'. split; [done|]. simpl in Hd. congruence.
Qed.

Lemma exec_from_file_calls c cmd :
  Console_wf c ->
  Forall (fun call =>
            exists cv, variables c !! call_var call = Some cv
                       /\ isFunc cv = false /\ call_fn call = valSet cv)
    (exec c true cmd).1.2.
Proof.
  intros Hwf. destruct (exec_cases c true cmd) as [e|tok0 cv v argc Hcv Hskip].
  { constructor. }
  destruct (Hwf tok0 cv Hcv) as [Hname _]. simpl in Hskip.
  pose proof (write_cases cv (varType cv) v argc) as Hs.
  unfold exec_after_write.
  destruct (write cv (varType cv) v argc) as [[cv' calls] err].
  assert (Forall (fun call =>
            exists cv0, variables c !! call_var call = Some cv0
                        /\ isFunc cv0 = false /\ call_fn call = valSet cv0) calls)
    as Hcalls.
  { inversion Hs; subst; try constructor; try congruence; [|constructor].
    exists cv. simpl. by rewrite Hcv. }
  by destruct err.
Qed.

Lemma Load_lines_calls lines c :
  Console_wf c ->
  Forall (fun call =>
            exists cv, variables c !! call_var call = Some cv
                       /\ isFunc cv = false /\ call_fn call = valSet cv)
    (Load_lines c lines).2.
Proof.
  revert c. induction lines as [|line lines IH]; intros c Hwf; [constructor|].
  simpl. pose proof (exec_from_file_calls c line Hwf) as H1.
  pose proof (exec_wf c true line Hwf) as Hwf1.
  destruct (exec_frame c true line) as (Hd & _ & _).
  destruct (exec c true line) as [[c1 calls1] r1]. simpl in *.
  specialize (IH c1 Hwf1). destruct (Load_lines c1 lines) as [c2 calls2].
  simpl in *. apply Forall_app. split; [done|].
  eapply Forall_impl; [exact IH|]. intros call (cv1 & Hcv1 & Hf1 & Hfn).
  symmetry in Hd.
  destruct (declarations_lookup c1 c _ cv1 Hd Hcv1) as (cv0 & Hcv0 & Hr).
  exists cv0. split; [done|].
  apply (f_equal isFunc) in Hr as Hr1. apply (f_equal valSet) in Hr as Hr2.
  simpl in *. split; congruence.
Qed.

Lemma Load_lines_func_entry lines c name cv :
  variables c !! name = Some cv -> isFunc cv = true ->
  variables (Load_lines c lines).1 !! name = Some cv.
Proof.
  revert c. induction lines as [|line lines IH]; intros c Hcv Hf; [done|].
  simpl. pose proof (exec_func_entry c true line name cv Hcv Hf) as H1.
  destruct (exec c true line) as [[c1 calls1] r1].
  specialize (IH c1 H1 Hf). by destruct (Load_lines c1 lines).
Qed.

(** X12.  Loading a file runs no command: whatever the file holds, every
    command variable is afterwards what it was, and every callback [Load]
    called is the callback of a registered variable that is no command. *)
Theorem Load_runs_no_command (c : Console) (fs : FS) (path : gostring) :
  Console_wf c ->
  (forall name cv,
     variables c !! name = Some cv -> isFunc cv = true ->
     variables (Load c fs path).1.1 !! name = Some cv)
  /\ Forall (fun call =>
               exists cv, variables c !! call_var call = Some cv
                          /\ isFunc cv = false /\ call_fn call = valSet cv)
       (Load c fs path).1.2.
Proof.
  intros Hwf. unfold Load. destruct (os_Open fs path) as [data|].
  - pose proof (Load_lines_calls (Scanner_lines data) c Hwf) as Hcalls.
    pose proof (Load_lines_func_entry (Scanner_lines data) c) as Hentry.
    destruct (Load_lines c (Scanner_lines data)) as [c' calls]. split; [|done].
    intros name cv. apply Hentry.
  - split; [done | constructor].
Qed.

(** X13.  [Save] writes a line for no command variable and for no variable
    whose value [==] finds equal to its default: when every variable is one
    or the other, as after [ResetAllVar] on variables whose defaults equal
    themselves (any but a float NaN), the file written is empty. *)
Theorem Save_of_defaults_is_empty (c : Console) (cvs : list ConVar) (fs : FS)
    (path : gostring) :
  ((forall cv, cv ∈ cvs ->
      isFunc cv = true \/ iface_eqb (value cv) (valDefault cv) = true) ->
   Save cvs fs path = ioutil_WriteFile fs path [])
  /\ (ConVars (ResetAllVar c) cvs ->
      (forall name cv, variables c !! name = Some cv ->
         iface_eqb (valDefault cv) (valDefault cv) = true) ->
      Save cvs fs path = ioutil_WriteFile fs path []).
Proof.
  assert ((forall cv, cv ∈ cvs ->
             isFunc cv = true \/ iface_eqb (value cv) (valDefault cv) = true) ->
          Save cvs fs path = ioutil_WriteFile fs path []) as Hgen.
  { intros Hall. unfold Save. f_equal.
    induction cvs as [|cv cvs IH]; [done|]. simpl.
    rewrite IH by (intros cv' Hin; apply Hall; by right).
    rewrite app_nil_r. unfold Save_line.
    destruct (Hall cv) as [->| ->]; [by left | |]; simpl;
      by rewrite ?andb_false_r. }
  split; [done|]. intros Hcvs Hself. apply Hgen. intros cv Hin. right.
  apply (ConVars_elem _ _ _ Hcvs) in Hin as [name Hname].
  simpl in Hname. rewrite lookup_fmap in Hname.
  destruct (variables c !! name) as [cv0|] eqn:H0; [|done].
  injection Hname as <-. simpl. by eapply Hself.
Qed.

End files.

(** ** The log buffer, whatever is logged *)

Lemma log_within_bound c prefix msg :
  1 <= bufMaxLines c -> buffer_within_bound c ->
  exists c',
    log c prefix msg = Returns c'
    /\ buffer_within_bound c'
    /\ bufMaxLines c' = bufMaxLines c /\ variables c' = variables c
    /\ logLevel c' = logLevel c
    /\ last (buffer c') = Some (prefix ++ msg).
Proof.
  unfold buffer_within_bound, log. intros Hmax Hlen.
  destruct (Z.geb_spec (Z.of_nat (length (buffer c))) (bufMaxLines c)).
  - destruct (buffer c) as [|x b] eqn:Hb; [simpl in *; lia|].
    eexists. split; [done|]. simpl in *. rewrite length_app, last_snoc.
    simpl. repeat split; try done. lia.
  - eexists. split; [done|]. simpl. rewrite length_app, last_snoc.
    simpl. repeat split; try done. lia.
Qed.

Lemma apply_logop_within_bound c op :
  1 <= bufMaxLines c -> buffer_within_bound c ->
  exists c',
    apply_logop c op = Returns c'
    /\ buffer_within_bound c'
    /\ bufMaxLines c' = bufMaxLines c /\ variables c' = variables c.
Proof.
  intros Hmax Hlen.
  assert (forall prefix msg,
            exists c', log c prefix msg = Returns c' /\ buffer_within_bound c'
                       /\ bufMaxLines c' = bufMaxLines c
                       /\ variables c' = variables c) as Hlog.
  { intros prefix msg.
    destruct (log_within_bound c prefix msg Hmax Hlen) as (c' & ? & ? & ? & ? & _).
    eauto. }
  destruct op as [msg|msg|msg|msg|level|]; simpl;
    unfold LogInfof, LogWarningf, LogErrorf, LogPrintf;
    try (destruct (LogInfo >? logLevel c); [by exists c|]); try apply Hlog.
  - by eexists.
  - eexists. split; [done|]. unfold buffer_within_bound. simpl.
    repeat split; try done. lia.
Qed.

(** X14.  On a console made with room for at least one line no operation on
    the log panics and the buffer never holds more than [bufMaxLines] lines,
    whatever is logged, cleared or set in whatever order; the variables are
    not touched and the bound stays. *)
Theorem buffer_never_exceeds_bound (c : Console) (ops : list LogOp) :
  1 <= bufMaxLines c -> buffer_within_bound c ->
  exists c',
    apply_logops c ops = Returns c'
    /\ buffer_within_bound c'
    /\ bufMaxLines c' = bufMaxLines c /\ variables c' = variables c.
Proof.
  revert c. induction ops as [|op ops IH]; intros c Hmax Hlen.
  { by exists c. }
  simpl.
  destruct (apply_logop_within_bound c op Hmax Hlen) as (c1 & -> & Hl1 & Hm1 & Hv1).
  destruct (IH c1) as (c' & Hops & Hl & Hm & Hv); [lia | done |].
  exists c'. split; [done|]. split; [done|]. split; congruence.
Qed.

(** X15.  With room for at least one line, after any messages are printed
    the buffer holds, in order, the last [bufMaxLines] of the lines it held
    before followed by the messages. *)
Theorem buffer_holds_the_last_lines (c : Console) (msgs : list gostring) :
  1 <= bufMaxLines c -> buffer_within_bound c ->
  exists c',
    log_all c msgs = Returns c'
    /\ BufferRaw c' = lastn (Z.to_nat (bufMaxLines c)) (buffer c ++ msgs)
    /\ (Z.to_nat (bufMaxLines c) <= length (buffer c ++ msgs) ->
        length (BufferRaw c') = Z.to_nat (bufMaxLines c))%nat.
Proof.
  intros Hmax Hlen. unfold buffer_within_bound in Hlen.
  destruct (bounded_buffer msgs c Hmax) as (c' & Hall & Hbuf); [lia|].
  exists c'. split; [done|]. split; [done|]. intros Hfull.
  rewrite Hbuf. unfold lastn. rewrite length_drop. lia.
Qed.

(** ** Suggestions, exactly *)

Lemma Suggest_loop_take allCvs substr n cvs :
  Z.of_nat (length cvs) < n ->
  Suggest_loop allCvs substr n cvs
  = cvs ++ take (Z.to_nat n - length cvs)
             (filter (fun cv => strings_Contains (varName cv) substr = true) allCvs).
Proof.
  revert cvs. induction allCvs as [|cv rest IH]; intros cvs Hlen; simpl.
  { by rewrite filter_nil, take_nil, app_nil_r. }
  rewrite filter_cons.
  destruct (strings_Contains (varName cv) substr) eqn:Hc.
  - rewrite decide_True by done.
    destruct (Z.to_nat n - length cvs)%nat as [|k] eqn:Hk; [lia|]. simpl.
    destruct (Z.geb_spec (Z.of_nat (length (cvs ++ [cv]))) n) as [Hge|Hlt].
    + rewrite length_app in Hge. simpl in Hge.
      replace k with 0%nat by lia. by rewrite take_0.
    + rewrite IH by done. rewrite length_app in *. simpl in *.
      rewrite <- app_assoc. simpl. do 3 f_equal. lia.
  - rewrite decide_False by done. by apply IH.
Qed.

Section suggest_exact.
Context `{StdLib}.

(** X16.  For a limit of at least one and a text of at least three runes,
    [Suggest] returns the first [n] of the variables it ranges over whose
    name contains the lower-cased text, in the order it ranges over them;
    all of them when there are fewer than [n]. *)
Theorem Suggest_is_the_first_matches (allCvs : list ConVar) (s : gostring)
    (n : Z) :
  1 <= n -> (3 <= length s)%nat ->
  Suggest allCvs s n
  = take (Z.to_nat n)
      (filter (fun cv => strings_Contains (varName cv) (strings_ToLower s) = true)
         allCvs).
Proof.
  intros Hn Hs. unfold Suggest.
  destruct (Z.ltb_spec (Z.of_nat (length s)) 3); [lia|].
  rewrite Suggest_loop_take by (simpl; lia). simpl. f_equal. lia.
Qed.

End suggest_exact.

(** ** Wrapping *)

Lemma chunks_loop_spec w chunk s :
  1 <= w -> Z.of_nat (length chunk) < w ->
  exists full rest,
    chunks_loop w chunk s
    = Returns (full ++ match rest with [] => [] | _ => [rest] end)
    /\ Forall (fun ch => Z.of_nat (length ch) = w) full
    /\ Z.of_nat (length rest) < w
    /\ chunk ++ s = concat full ++ rest
    /\ (full = [] -> rest = chunk ++ s).
Proof.
  intros Hw. revert chunk.
  induction s as [|r s IH]; intros chunk Hlen.
  - exists [], chunk. simpl. rewrite app_nil_r. by repeat split.
  - simpl. destruct (Z.geb_spec (Z.of_nat (length chunk)) w); [lia|].
    destruct (Z.eqb_spec (Z.of_nat (length (chunk ++ [r]))) w) as [Heq|Hne].
    + destruct (IH []) as (full & rest & -> & Hfull & Hrest & Hcat & _);
        [simpl; lia|].
      exists ((chunk ++ [r]) :: full), rest. simpl in *.
      split; [done|]. split; [by constructor|]. split; [done|].
      split; [|done]. rewrite Hcat, <- !app_assoc. done.
    + destruct (IH (chunk ++ [r])) as (full & rest & -> & Hfull & Hrest & Hcat & Hnil).
      { rewrite length_app in *. simpl in *. lia. }
      exists full, rest. split; [done|]. split; [done|]. split; [done|].
      rewrite <- !app_assoc in *. simpl in *. by split.
Qed.

Lemma chunks_spec (s : gostring) (chunkSize : Z) :
  1 <= chunkSize ->
  exists full last,
    chunks s chunkSize = Returns (full ++ [last])
    /\ concat (full ++ [last]) = s
    /\ Forall (fun ch => Z.of_nat (length ch) = chunkSize) full
    /\ Z.of_nat (length last) <= chunkSize.
Proof.
  intros Hw. unfold chunks.
  assert (Z.of_nat (length s) <= byte_len s) as Hbytes.
  { induction s as [|r s IH]; simpl; [lia|]. unfold utf8_RuneLen.
    repeat case_match; lia. }
  destruct (Z.geb_spec chunkSize (byte_len s)) as [Hge|Hlt].
  { exists [], s. simpl. rewrite app_nil_r.
    split; [done|]. split; [done|]. split; [constructor|]. exact (Z.le_trans _ _ _ Hbytes Hge). }
  destruct (Z.ltb_spec chunkSize 0); [lia|].
  destruct (chunks_loop_spec chunkSize [] s Hw) as (full & rest & -> & Hfull & Hrest & Hcat & Hnil);
    [simpl; lia|].
  simpl in Hcat. destruct rest as [|r rest].
  - destruct full as [|ch full _] using rev_ind.
    + specialize (Hnil eq_refl). subst s. simpl in *. lia.
    + exists full, ch. rewrite app_nil_r in *.
      apply Forall_app in Hfull as [Hfull Hch]. apply Forall_cons in Hch as [Hch _].
      split; [done|]. split; [by rewrite Hcat|]. split; [done | lia].
  - exists full, (r :: rest). split; [done|].
    split; [by rewrite concat_app, Hcat; simpl; rewrite app_nil_r|].
    split; [done | lia].
Qed.

(** X17.  For a size of at least one [chunks] returns, and the pieces it
    returns, put together again, are the text; every piece has at most
    [chunkSize] runes, and every piece before the last exactly that many.
    For a size of zero or less it panics on every text that is not empty. *)
Theorem chunks_cut_the_text (s : gostring) (chunkSize : Z) :
  (1 <= chunkSize ->
   exists full last,
     chunks s chunkSize = Returns (full ++ [last])
     /\ concat (full ++ [last]) = s
     /\ Forall (fun ch => Z.of_nat (length ch) = chunkSize) full
     /\ Z.of_nat (length last) <= chunkSize)
  /\ (chunkSize <= 0 -> s <> [] -> chunks s chunkSize = Panics).
Proof.
  split; [apply chunks_spec|]. intros Hw Hs. unfold chunks.
  destruct s as [|r s]; [done|].
  assert (0 < byte_len (r :: s)) as Hpos.
  { simpl. pose proof (byte_len_nonneg s). unfold utf8_RuneLen.
    repeat case_match; lia. }
  destruct (Z.geb_spec chunkSize (byte_len (r :: s))); [lia|].
  destruct (Z.ltb_spec chunkSize 0); [done|].
  cbn [chunks_loop length]. destruct (Z.geb_spec (Z.of_nat 0) chunkSize) as [|Hlt];
    [done | simpl in Hlt; lia].
Qed.

Lemma BufferWrappedRaw_loop_spec lines maxWidth ret :
  1 <= maxWidth ->
  exists out,
    BufferWrappedRaw_loop lines maxWidth ret = Returns (ret ++ out)
    /\ concat out = concat lines
    /\ Forall (fun l => Z.of_nat (length l) <= maxWidth) out
    /\ (Forall (fun l => Z.of_nat (length l) <= maxWidth) lines -> out = lines).
Proof.
  intros Hw. revert ret. induction lines as [|line lines IH]; intros ret; simpl.
  { exists []. rewrite app_nil_r. by repeat split. }
  destruct (Z.gtb_spec (Z.of_nat (length line)) maxWidth) as [Hgt|Hle].
  - destruct (chunks_spec line maxWidth Hw)
      as (full & last & -> & Hcat & Hfull & Hlast).
    destruct (IH (ret ++ full ++ [last])) as (out & -> & Hout & Hall & _).
    exists ((full ++ [last]) ++ out). rewrite <- !app_assoc.
    split; [done|]. split; [rewrite (app_assoc full), concat_app, Hout, Hcat; done|].
    split.
    + rewrite (app_assoc full). apply Forall_app. split; [|done].
      apply Forall_app. split; [|by constructor].
      eapply Forall_impl; [exact Hfull|]. simpl. lia.
    + intros Hshort. apply Forall_cons in Hshort as [Hl _]. lia.
  - destruct (IH (ret ++ [line])) as (out & -> & Hout & Hall & Hsame).
    exists (line :: out). rewrite <- app_assoc. split; [done|].
    split; [simpl; by rewrite Hout|]. split; [by constructor|].
    intros Hshort. apply Forall_cons in Hshort as [_ Hshort].
    by rewrite Hsame.
Qed.

(** X18.  For a width of at least one [BufferWrappedRaw] returns; the lines
    it returns have at most [maxWidth] runes each and, put end to end, are
    the lines of the buffer put end to end; when no line of the buffer is
    longer than the width it returns the buffer as it is. *)
Theorem BufferWrappedRaw_wraps (c : Console) (maxWidth : Z) :
  1 <= maxWidth ->
  exists out,
    BufferWrappedRaw c maxWidth = Returns out
    /\ concat out = concat (buffer c)
    /\ Forall (fun l => Z.of_nat (length l) <= maxWidth) out
    /\ (Forall (fun l => Z.of_nat (length l) <= maxWidth) (buffer c) ->
        out = BufferRaw c).
Proof.
  intros Hw. unfold BufferWrappedRaw.
  destruct (BufferWrappedRaw_loop_spec (buffer c) maxWidth [] Hw)
    as (out & -> & Hcat & Hall & Hsame).
  by exists out.
Qed.

(** ** The variables of [RegDefaultConVars] *)

Lemma RegConVars_Returns (cvs : list ConVar) c :
  RegConVars c (Returns <$> cvs) = Returns (foldl RegConVar c cvs).
Proof.
  revert c. induction cvs as [|cv cvs IH]; intros c; [done|]. simpl. apply IH.
Qed.

Lemma RegConVars_same_log cvs c : same_log c (foldl RegConVar c cvs).
Proof.
  revert c. induction cvs as [|cv cvs IH]; intros c; [apply same_log_refl|].
  simpl. eapply same_log_trans; [|apply IH]. apply same_log_set_variables.
Qed.

Lemma RegConVars_other cvs c name :
  name ∉ varName <$> cvs ->
  variables (foldl RegConVar c cvs) !! name = variables c !! name.
Proof.
  revert c. induction cvs as [|cv cvs IH]; intros c Hn; [done|].
  simpl in *. apply not_elem_of_cons in Hn as [Hne Hn].
  rewrite IH by done. unfold RegConVar. simpl. by rewrite lookup_insert_ne.
Qed.

Lemma RegConVars_lookup cvs c cv :
  NoDup (varName <$> cvs) -> cv ∈ cvs ->
  variables (foldl RegConVar c cvs) !! varName cv = Some cv.
Proof.
  revert c. induction cvs as [|cv0 cvs IH]; intros c Hnd Hin.
  { by apply elem_of_nil in Hin. }
  simpl in *. apply NoDup_cons in Hnd as [Hn0 Hnd].
  apply elem_of_cons in Hin as [->|Hin]; [|by apply IH].
  rewrite RegConVars_other by done. unfold RegConVar. simpl.
  by rewrite lookup_insert_eq.
Qed.

Lemma NoDup_default_names : NoDup default_names.
Proof.
  unfold default_names.
  repeat (apply NoDup_cons; split; [vm_compute; not_in_list|]).
  apply NoDup_nil_2.
Qed.

(** A line logged changes the buffer and nothing else. *)
Lemma log_keeps c prefix msg c' :
  log c prefix msg = Returns c' ->
  variables c' = variables c /\ bufMaxLines c' = bufMaxLines c
  /\ logLevel c' = logLevel c /\ logInfoPrefix c' = logInfoPrefix c.
Proof.
  unfold log. repeat case_match; try done; by intros [= <-].
Qed.

Lemma LogInfof_variables c msg c' :
  LogInfof c msg = Returns c' -> variables c' = variables c.
Proof.
  unfold LogInfof. case_match; [by intros [= <-]|]. intros Hl.
  by apply log_keeps in Hl as [? _].
Qed.

Lemma LogErrorf_variables c msg c' :
  LogErrorf c msg = Returns c' -> variables c' = variables c.
Proof.
  unfold LogErrorf. case_match; [by intros [= <-]|]. intros Hl.
  by apply log_keeps in Hl as [? _].
Qed.

Lemma var_list_loop_variables cvs c c' :
  var_list_loop c cvs = Returns c' -> variables c' = variables c.
Proof.
  revert c. induction cvs as [|cv cvs IH]; intros c; simpl.
  - by intros [= <-].
  - destruct (LogInfof c _) as [c1|] eqn:Hl; [|done]. intros Hr.
    apply IH in Hr. apply LogInfof_variables in Hl. congruence.
Qed.

(** [var_list] on a console that logs: the lines of the variables are
    appended, and the buffer keeps the last ones. *)
Lemma var_list_loop_spec cvs c :
  LogInfo <= logLevel c -> 1 <= bufMaxLines c ->
  (length (buffer c) <= Z.to_nat (bufMaxLines c))%nat ->
  exists c',
    var_list_loop c cvs = Returns c'
    /\ variables c' = variables c
    /\ buffer c'
       = lastn (Z.to_nat (bufMaxLines c))
           (buffer c
            ++ map (fun cv => logInfoPrefix c ++ varName cv ++ str ": "
                              ++ varDesc cv) cvs).
Proof.
  revert c. induction cvs as [|cv cvs IH]; intros c Hlev Hmax Hlen.
  - exists c. split; [done|]. split; [done|]. unfold lastn.
    rewrite app_nil_r.
    replace (length (buffer c) - Z.to_nat (bufMaxLines c))%nat with 0%nat by lia.
    done.
  - cbn [var_list_loop map].
    destruct (helpers_gate_on_LogInfo c (varName cv ++ str ": " ++ varDesc cv))
      as [-> _].
    destruct (Z.leb_spec LogInfo (logLevel c)) as [_|]; [|lia].
    destruct (log_Returns c (logInfoPrefix c)
                (varName cv ++ str ": " ++ varDesc cv) Hmax Hlen)
      as (c1 & Hlog & Hm & Hl & Hlast).
    rewrite Hlog. destruct (log_keeps _ _ _ _ Hlog) as (Hv & _ & Hlv & Hp).
    destruct (IH c1) as (c' & -> & Hv' & Hb); [lia | lia | by rewrite Hm |].
    exists c'. split; [done|]. split; [congruence|].
    rewrite Hb, Hm, Hp. apply Hlast.
Qed.

Lemma Reset_default cv : value cv = valDefault cv -> Reset cv = cv.
Proof. destruct cv. simpl. by intros ->. Qed.

Section defaults.
Context `{StdLib} `{OS}.

Lemma ToLower_ascii_text s :
  ToLower_on_ascii -> Forall (fun r => (r < 128)%N) s ->
  strings_ToLower s = map ascii_ToLower s.
Proof.
  intros Hlow Hs. unfold strings_ToLower.
  induction Hs as [|r s Hr Hs IH]; [done|]. simpl. by rewrite Hlow, IH.
Qed.

Lemma ToLower_default_names :
  ToLower_on_ascii ->
  Forall (fun name => strings_ToLower name = name) default_names.
Proof.
  intros Hlow. unfold default_names.
  repeat (constructor;
          [rewrite ToLower_ascii_text;
           [reflexivity | done | repeat constructor]|]).
  constructor.
Qed.

(** Every variable of [RegDefaultConVars] is made, as a command whose value
    is its default. *)
Lemma default_convars_Returns :
  Forall (fun new => exists cv,
            new = Returns cv /\ isFunc cv = true /\ value cv = valDefault cv)
    default_convars.
Proof.
  unfold default_convars.
  repeat (constructor; [eexists; split; [reflexivity|]; by split|]).
  constructor.
Qed.

Lemma default_convars_names :
  ToLower_on_ascii ->
  Forall2 (fun new name => exists cv, new = Returns cv /\ varName cv = name)
    default_convars default_names.
Proof.
  intros Hlow. pose proof (ToLower_default_names Hlow) as Hn.
  unfold default_names in *. unfold default_convars.
  repeat (apply Forall_cons in Hn as [? Hn]).
  repeat (constructor; [eexists; split; [reflexivity|]; by simpl|]).
  constructor.
Qed.

(** The variables [RegDefaultConVars] makes, under their names. *)
Lemma default_convars_made :
  ToLower_on_ascii ->
  exists cvs, default_convars = Returns <$> cvs
              /\ varName <$> cvs = default_names
              /\ Forall (fun cv => isFunc cv = true /\ value cv = valDefault cv)
                   cvs.
Proof.
  intros Hlow. pose proof (default_convars_names Hlow) as Hn.
  pose proof default_convars_Returns as Hr.
  revert Hn Hr. generalize default_convars default_names.
  intros news names Hn. induction Hn as [|new name news names (cv & -> & Hname) Hn IH];
    intros Hr.
  - by exists [].
  - apply Forall_cons in Hr as [(cv' & [= <-] & Hf & Hv) Hr].
    destruct (IH Hr) as (cvs & -> & Hnames & Hall).
    exists (cv :: cvs). split; [done|].
    split; [by rewrite fmap_cons, Hname, Hnames|]. by constructor.
Qed.

Lemma has_defaults_lookup c :
  ToLower_on_ascii -> has_defaults c ->
  Forall2 (fun new name => exists cv,
             new = Returns cv /\ variables c !! name = Some cv)
    default_convars default_names.
Proof.
  intros Hlow Hd. pose proof (default_convars_names Hlow) as Hn.
  unfold has_defaults in Hd. revert Hn Hd.
  generalize default_convars default_names. intros news names Hn.
  induction Hn as [|new name news names (cv & -> & Hname) Hn IH]; intros Hd.
  - constructor.
  - apply Forall_cons in Hd as [(cv' & [= <-] & Hcv) Hd].
    constructor; [|by apply IH]. exists cv. by rewrite <- Hname.
Qed.

(** X19.  Where [strings.ToLower] is on ASCII what its documentation says,
    [RegDefaultConVars] does not panic: the console then holds, each under
    its own name, the seven variables con_dump, con_clear, var_reset_all,
    var_reset, var_load, var_save and var_list, every one a command that
    holds its default; the variables of every other name are the ones that
    were there, and the log is as it was. *)
Theorem RegDefaultConVars_registers (c : Console) :
  ToLower_on_ascii ->
  exists c',
    RegDefaultConVars c = Returns c'
    /\ has_defaults c'
    /\ Forall (fun name => exists cv,
                 variables c' !! name = Some cv /\ varName cv = name
                 /\ isFunc cv = true /\ value cv = valDefault cv)
         default_names
    /\ (forall name, name ∉ default_names ->
          variables c' !! name = variables c !! name)
    /\ same_log c c'.
Proof.
  intros Hlow. destruct (default_convars_made Hlow) as (cvs & Hnews & Hnames & Hall).
  unfold RegDefaultConVars, has_defaults. rewrite Hnews.
  rewrite RegConVars_Returns.
  pose proof NoDup_default_names as Hnd. rewrite <- Hnames in Hnd.
  exists (foldl RegConVar c cvs). split; [done|]. split.
  { apply Forall_fmap, Forall_forall. intros cv Hin. exists cv.
    split; [done|]. by apply RegConVars_lookup. }
  split.
  { rewrite <- Hnames. apply Forall_fmap, Forall_forall. intros cv Hin.
    exists cv. simpl. split; [by apply RegConVars_lookup|].
    split; [done|]. by apply (proj1 (Forall_forall _ cvs) Hall). }
  split.
  { intros name Hn. apply RegConVars_other. by rewrite Hnames. }
  apply RegConVars_same_log.
Qed.

Lemma has_default c i name kind desc d fn name' :
  ToLower_on_ascii -> has_defaults c ->
  default_convars !! i = Some (NewConVar name kind true desc d fn) ->
  default_names !! i = Some name' ->
  exists cv,
    variables c !! name' = Some cv /\ varName cv = name' /\ varType cv = kind
    /\ valDefault cv = d /\ value cv = d /\ valSet cv = fn /\ isFunc cv = true.
Proof.
  intros Hlow Hd Hi Hn.
  destruct (Forall2_lookup_lr _ _ _ _ _ _ (has_defaults_lookup c Hlow Hd) Hi Hn)
    as (cv & Hnew & Hcv).
  destruct (Forall2_lookup_lr _ _ _ _ _ _ (default_convars_names Hlow) Hi Hn)
    as (cv' & Hnew' & Hname).
  rewrite Hnew in Hnew'. injection Hnew' as <-.
  apply NewConVar_Returns in Hnew as (Hrec & _ & _).
  exists cv. split; [done|]. split; [done|]. by rewrite Hrec.
Qed.

(** A command of [RegDefaultConVars] typed alone: [exec] makes one call of
    its function, with the default of the variable and the value of no
    argument. *)
Lemma exec_bare_command c cmd name cv v :
  strings_TrimSpace (strings_ToLower cmd) = name ->
  name <> [] -> no_space name -> name <> str "#" ->
  variables c !! name = Some cv -> isFunc cv = true ->
  parse_value (varType cv) (str "0") [] = (v, false) ->
  TypeOf_Kind v = Some (varType cv) ->
  ExecCmd c cmd = (c, [call_valSet cv (valDefault cv) v], (Some cv, None)).
Proof.
  intros Hcmd Hname Hns Hhash Hcv Hf Hp Hk. unfold ExecCmd.
  rewrite (exec_on_bare_name c false cmd name cv) by done. rewrite Hp.
  unfold exec_after_write, write.
  rewrite Hk, Hf. destruct (varType cv); simpl;
    by rewrite insert_id, set_variables_id.
Qed.

Lemma exec_command_argument c cmd name u sp cv :
  strings_ToLower cmd = name ++ sp :: u ->
  unicode_IsSpace sp = true -> name <> [] -> no_space name ->
  name <> str "#" -> strings_TrimSpace u <> [] ->
  variables c !! name = Some cv -> isFunc cv = true ->
  varType cv = reflect.String ->
  ExecCmd c cmd
  = (c, [call_valSet cv (valDefault cv) (VString (strings_TrimSpace u))],
     (Some cv, None)).
Proof.
  intros Hcmd Hsp Hname Hns Hhash Hu Hcv Hf Hk. unfold ExecCmd.
  rewrite (exec_on_value c false cmd name u sp cv) by done.
  assert (trimmed (strings_TrimSpace u)) as Htr.
  { destruct (TrimSpace_split u) as (_ & _ & _ & _ & _ & Htr). by apply Htr. }
  rewrite Hk. unfold parse_value. rewrite TrimSpace_space_text by done.
  unfold exec_after_write, write. rewrite Hk, Hf. simpl.
  by rewrite insert_id, set_variables_id.
Qed.

Lemma default_names_tokens :
  Forall (fun name => name <> [] /\ no_space name /\ name <> str "#")
    default_names.
Proof.
  unfold default_names.
  repeat (constructor;
          [split; [done|]; split; [repeat constructor|by vm_compute]|]).
  constructor.
Qed.

Lemma default_name_token i name :
  default_names !! i = Some name ->
  name <> [] /\ no_space name /\ name <> str "#".
Proof.
  intros Hi. apply (proj1 (Forall_lookup _ _) default_names_tokens i name Hi).
Qed.

(** X20.  The command con_clear typed alone, in any case and with any white
    space around it, empties the buffer and changes nothing else: the
    variables and the files stay, no callback of the host is called, and
    [ExecCmd] returns the variable con_clear and no error. *)
Theorem con_clear_empties_the_buffer (cvs : list ConVar) (c : Console)
    (fs : FS) (cmd : gostring) :
  ToLower_on_ascii -> has_defaults c ->
  strings_TrimSpace (strings_ToLower cmd) = str "con_clear" ->
  exists cv,
    variables c !! str "con_clear" = Some cv
    /\ ExecCmd_run cvs c fs cmd
       = Returns (ClearBuffer c, fs, [], (Some cv, None)).
Proof.
  intros Hlow Hd Hcmd.
  destruct (has_default c 1 _ _ _ _ _ _ Hlow Hd eq_refl eq_refl)
    as (cv & Hcv & Hname & Hkind & Hdef & Hval & Hfn & Hfunc).
  destruct (default_name_token 1 _ eq_refl) as (Hne & Hns & Hhash).
  exists cv. split; [done|]. unfold ExecCmd_run.
  rewrite (exec_bare_command c cmd _ cv (VInt 0) Hcmd) by
    (try done; by rewrite Hkind).
  unfold run_call, call_valSet. simpl. by rewrite Hfn.
Qed.

(** X21.  The command var_reset_all typed alone puts every variable of the
    console at its default, each otherwise as it was; the log and the files
    stay and no callback of the host is called. *)
Theorem var_reset_all_resets_every_variable (cvs : list ConVar) (c : Console)
    (fs : FS) (cmd : gostring) :
  ToLower_on_ascii -> has_defaults c ->
  strings_TrimSpace (strings_ToLower cmd) = str "var_reset_all" ->
  exists cv c',
    ExecCmd_run cvs c fs cmd = Returns (c', fs, [], (Some cv, None))
    /\ same_log c c'
    /\ forall name,
         variables c' !! name = Reset <$> (variables c !! name).
Proof.
  intros Hlow Hd Hcmd.
  destruct (has_default c 2 _ _ _ _ _ _ Hlow Hd eq_refl eq_refl)
    as (cv & Hcv & Hname & Hkind & Hdef & Hval & Hfn & Hfunc).
  destruct (default_name_token 2 _ eq_refl) as (Hne & Hns & Hhash).
  exists cv, (ResetAllVar c). unfold ExecCmd_run.
  rewrite (exec_bare_command c cmd _ cv (VInt 0) Hcmd) by
    (try done; by rewrite Hkind).
  unfold run_call, call_valSet. simpl. rewrite Hfn. simpl.
  split; [done|]. split; [apply same_log_set_variables|].
  intros name. apply lookup_fmap.
Qed.

(** X22.  The command var_reset followed by a name: the name is what
    [strings.TrimSpace] keeps of the lower-cased text after the command.
    When [ConVar] finds a variable for it, that variable is reset, no
    callback is called and the line "name is reset" is logged with the info
    prefix; when it finds none, the variables stay and the not-found error is
    logged with the error prefix.  The command panics only if the log
    does. *)
Theorem var_reset_resets_the_named_variable (cvs : list ConVar) (c : Console)
    (fs : FS) (cmd u : gostring) (sp : rune) :
  ToLower_on_ascii -> has_defaults c ->
  strings_ToLower cmd = str "var_reset" ++ sp :: u ->
  unicode_IsSpace sp = true -> strings_TrimSpace u <> [] ->
  let target := strings_TrimSpace u in
  exists cv,
    variables c !! str "var_reset" = Some cv
    /\ ExecCmd_run cvs c fs cmd
       = command_result
           match Console_ConVar c target with
           | None => LogErrorf c (Error (errVarNotFound target))
           | Some cv' =>
               LogInfof
                 (set_variables c
                    (<[strings_ToLower target := Reset cv']> (variables c)))
                 (target ++ str " is reset")
           end
           (fun c' => (c', fs, [], (Some cv, None))).
Proof.
  intros Hlow Hd Hcmd Hsp Hu target.
  destruct (has_default c 3 _ _ _ _ _ _ Hlow Hd eq_refl eq_refl)
    as (cv & Hcv & Hname & Hkind & Hdef & Hval & Hfn & Hfunc).
  destruct (default_name_token 3 _ eq_refl) as (Hne & Hns & Hhash).
  exists cv. split; [done|]. unfold ExecCmd_run.
  rewrite (exec_command_argument c cmd _ u sp cv Hcmd) by done.
  unfold run_call, call_valSet. simpl. rewrite Hfn. simpl. fold target.
  destruct (Console_ConVar c target) as [cv'|]; simpl.
  - by destruct (LogInfof _ _).
  - by destruct (LogErrorf _ _).
Qed.

(** X23.  The command con_dump typed alone writes the buffer to
    console.log, the default of the variable: where that path can be written
    the file then holds the lines of the buffer as they were before the
    command, joined by newlines, and the line "console.log is saved" is
    logged after the file is written. *)
Theorem con_dump_writes_the_default_file (cvs : list ConVar) (c : Console)
    (fs : FS) (cmd : gostring) :
  ToLower_on_ascii -> has_defaults c ->
  strings_TrimSpace (strings_ToLower cmd) = str "con_dump" ->
  str "console.log" ∉ fs_denied fs ->
  exists cv,
    variables c !! str "con_dump" = Some cv
    /\ ExecCmd_run cvs c fs cmd
       = command_result (LogInfof c (str "console.log is saved"))
           (fun c' =>
              (c',
               {| fs_files := <[str "console.log" := Buffer c]> (fs_files fs);
                  fs_denied := fs_denied fs |},
               [], (Some cv, None))).
Proof.
  intros Hlow Hd Hcmd Hfile.
  destruct (has_default c 0 _ _ _ _ _ _ Hlow Hd eq_refl eq_refl)
    as (cv & Hcv & Hname & Hkind & Hdef & Hval & Hfn & Hfunc).
  destruct (default_name_token 0 _ eq_refl) as (Hne & Hns & Hhash).
  exists cv. split; [done|]. unfold ExecCmd_run.
  rewrite (exec_bare_command c cmd _ cv (VString []) Hcmd) by
    (try done; by rewrite Hkind).
  unfold run_call, call_valSet. simpl. rewrite Hfn, Hdef. simpl.
  unfold valSet_con_dump, file_argument, DumpBuffer, ioutil_WriteFile.
  rewrite bool_decide_eq_false_2 by done. simpl.
  by destruct (LogInfof _ _).
Qed.

(** X24.  The command con_dump followed by a file name writes to the file
    of that name lower-cased and trimmed.  If the path cannot be written the
    files stay as they are and the error is logged; otherwise the file holds
    the buffer as it was before the command and "name is saved" is
    logged. *)
Theorem con_dump_writes_the_named_file (cvs : list ConVar) (c : Console)
    (fs : FS) (cmd u : gostring) (sp : rune) :
  ToLower_on_ascii -> has_defaults c ->
  strings_ToLower cmd = str "con_dump" ++ sp :: u ->
  unicode_IsSpace sp = true -> strings_TrimSpace u <> [] ->
  let file := strings_TrimSpace u in
  exists cv,
    variables c !! str "con_dump" = Some cv
    /\ ExecCmd_run cvs c fs cmd
       = if bool_decide (file ∈ fs_denied fs) then
           command_result (LogErrorf c (os_Error file))
             (fun c' => (c', fs, [], (Some cv, None)))
         else
           command_result (LogInfof c (file ++ str " is saved"))
             (fun c' =>
                (c',
                 {| fs_files := <[file := Buffer c]> (fs_files fs);
                    fs_denied := fs_denied fs |},
                 [], (Some cv, None))).
Proof.
  intros Hlow Hd Hcmd Hsp Hu. cbv zeta.
  destruct (has_default c 0 _ _ _ _ _ _ Hlow Hd eq_refl eq_refl)
    as (cv & Hcv & Hname & Hkind & Hdef & Hval & Hfn & Hfunc).
  destruct (default_name_token 0 _ eq_refl) as (Hne & Hns & Hhash).
  exists cv. split; [done|]. unfold ExecCmd_run.
  rewrite (exec_command_argument c cmd _ u sp cv Hcmd) by done.
  unfold run_call, call_valSet. simpl. rewrite Hfn, Hdef. simpl.
  unfold valSet_con_dump, file_argument, DumpBuffer, ioutil_WriteFile.
  destruct (strings_TrimSpace u) as [|r file]; [done|].
  case_bool_decide; simpl.
  - by destruct (LogErrorf _ _).
  - by destruct (LogInfof _ _).
Qed.

(** X25.  The command var_save typed alone is [Save] to convars.ini, the
    default of the variable, followed by one line in the log: the error of
    [Save], or "convars.ini is saved". *)
Theorem var_save_writes_the_default_file (cvs : list ConVar) (c : Console)
    (fs : FS) (cmd : gostring) :
  ToLower_on_ascii -> has_defaults c ->
  strings_TrimSpace (strings_ToLower cmd) = str "var_save" ->
  exists cv,
    variables c !! str "var_save" = Some cv
    /\ ExecCmd_run cvs c fs cmd
       = match Save cvs fs (str "convars.ini") with
         | (fs', Some e) =>
             command_result (LogErrorf c (Error e))
               (fun c' => (c', fs', [], (Some cv, None)))
         | (fs', None) =>
             command_result (LogInfof c (str "convars.ini is saved"))
               (fun c' => (c', fs', [], (Some cv, None)))
         end.
Proof.
  intros Hlow Hd Hcmd.
  destruct (has_default c 5 _ _ _ _ _ _ Hlow Hd eq_refl eq_refl)
    as (cv & Hcv & Hname & Hkind & Hdef & Hval & Hfn & Hfunc).
  destruct (default_name_token 5 _ eq_refl) as (Hne & Hns & Hhash).
  exists cv. split; [done|]. unfold ExecCmd_run.
  rewrite (exec_bare_command c cmd _ cv (VString []) Hcmd) by
    (try done; by rewrite Hkind).
  cbv beta iota zeta. unfold run_call, call_valSet.
  cbn [call_fn call_old call_new]. rewrite Hfn, Hdef.
  change (default_valSet fn_var_save) with (Some valSet_var_save).
  cbv beta iota. unfold valSet_var_save.
  change (file_argument (VString (str "convars.ini")) (VString []))
    with (Returns (str "convars.ini")).
  cbv beta iota.
  destruct (Save cvs fs (str "convars.ini")) as [fs' [e|]];
    unfold log_result, command_result.
  - by destruct (LogErrorf c (Error e)).
  - by destruct (LogInfof c _).
Qed.

(** X26.  The command var_load typed alone is [Load] of convars.ini, the
    default of the variable, followed by one line in the log: the error of
    [Load], or "convars.ini is loaded"; the callbacks called are those [Load]
    called, and the files stay. *)
Theorem var_load_loads_the_default_file (cvs : list ConVar) (c : Console)
    (fs : FS) (cmd : gostring) :
  ToLower_on_ascii -> has_defaults c ->
  strings_TrimSpace (strings_ToLower cmd) = str "var_load" ->
  exists cv,
    variables c !! str "var_load" = Some cv
    /\ ExecCmd_run cvs c fs cmd
       = match Load c fs (str "convars.ini") with
         | (c1, calls, Some e) =>
             command_result (LogErrorf c1 (Error e))
               (fun c' => (c', fs, calls, (Some cv, None)))
         | (c1, calls, None) =>
             command_result (LogInfof c1 (str "convars.ini is loaded"))
               (fun c' => (c', fs, calls, (Some cv, None)))
         end.
Proof.
  intros Hlow Hd Hcmd.
  destruct (has_default c 4 _ _ _ _ _ _ Hlow Hd eq_refl eq_refl)
    as (cv & Hcv & Hname & Hkind & Hdef & Hval & Hfn & Hfunc).
  destruct (default_name_token 4 _ eq_refl) as (Hne & Hns & Hhash).
  exists cv. split; [done|]. unfold ExecCmd_run.
  rewrite (exec_bare_command c cmd _ cv (VString []) Hcmd) by
    (try done; by rewrite Hkind).
  cbv beta iota zeta. unfold run_call, call_valSet.
  cbn [call_fn call_old call_new]. rewrite Hfn, Hdef.
  change (default_valSet fn_var_load) with (Some valSet_var_load).
  cbv beta iota. unfold valSet_var_load.
  change (file_argument (VString (str "convars.ini")) (VString []))
    with (Returns (str "convars.ini")).
  cbv beta iota.
  destruct (Load c fs (str "convars.ini")) as [[c1 calls] [e|]];
    unfold log_result, command_result.
  - by destruct (LogErrorf c1 (Error e)).
  - by destruct (LogInfof c1 _).
Qed.

(** X27.  The command var_list typed alone, on a console that logs and has
    room for at least one line, logs for every variable the line
    "name: description" with the info prefix, in the order the variables are
    ranged over; the buffer then holds the last [bufMaxLines] of its lines
    and these, and the variables are not touched. *)
Theorem var_list_logs_every_variable (cvs : list ConVar) (c : Console)
    (fs : FS) (cmd : gostring) :
  ToLower_on_ascii -> has_defaults c ->
  strings_TrimSpace (strings_ToLower cmd) = str "var_list" ->
  LogInfo <= logLevel c -> 1 <= bufMaxLines c ->
  (length (buffer c) <= Z.to_nat (bufMaxLines c))%nat ->
  exists cv c',
    ExecCmd_run cvs c fs cmd = Returns (c', fs, [], (Some cv, None))
    /\ variables c' = variables c
    /\ buffer c'
       = lastn (Z.to_nat (bufMaxLines c))
           (buffer c
            ++ map (fun cv => logInfoPrefix c ++ varName cv ++ str ": "
                              ++ varDesc cv) cvs).
Proof.
  intros Hlow Hd Hcmd Hlev Hmax Hlen.
  destruct (has_default c 6 _ _ _ _ _ _ Hlow Hd eq_refl eq_refl)
    as (cv & Hcv & Hname & Hkind & Hdef & Hval & Hfn & Hfunc).
  destruct (default_name_token 6 _ eq_refl) as (Hne & Hns & Hhash).
  destruct (var_list_loop_spec cvs c Hlev Hmax Hlen) as (c' & Hloop & Hv & Hb).
  exists cv, c'. unfold ExecCmd_run.
  rewrite (exec_bare_command c cmd _ cv (VInt 0) Hcmd) by
    (try done; by rewrite Hkind).
  cbv beta iota zeta. unfold run_call, call_valSet.
  cbn [call_fn call_old call_new]. rewrite Hfn.
  change (default_valSet fn_var_list) with (Some valSet_var_list).
  cbv beta iota. unfold valSet_var_list. by rewrite Hloop.
Qed.

Lemma has_defaults_kept c c' :
  (forall name cv,
     variables c !! name = Some cv -> isFunc cv = true ->
     value cv = valDefault cv -> variables c' !! name = Some cv) ->
  has_defaults c -> has_defaults c'.
Proof.
  intros Hk Hd. unfold has_defaults in *.
  pose proof default_convars_Returns as Hr.
  apply Forall_forall. intros new Hin.
  apply (proj1 (Forall_forall _ _) Hd) in Hin as Hd1.
  apply (proj1 (Forall_forall _ _) Hr) in Hin as Hr1.
  destruct Hd1 as (cv & -> & Hcv). destruct Hr1 as (cv' & [= <-] & Hf & Hv).
  exists cv. split; [done|]. by apply Hk.
Qed.

Lemma log_result_variables c err msg c' :
  log_result c err msg = Returns c' -> variables c' = variables c.
Proof.
  destruct err; simpl; [apply LogErrorf_variables | apply LogInfof_variables].
Qed.

(** A function of [RegDefaultConVars] leaves every command in the console
    that holds its default. *)
Lemma run_call_keeps cvs c fs call c' fs' calls name cv :
  run_call cvs c fs call = Returns (c', fs', calls) ->
  variables c !! name = Some cv -> isFunc cv = true ->
  value cv = valDefault cv -> variables c' !! name = Some cv.
Proof.
  intros Hrun Hcv Hf Hv. unfold run_call, default_valSet in Hrun.
  repeat case_match; simplify_eq.
  - unfold valSet_con_dump in Hrun.
    destruct (file_argument _ _) as [file|]; [|done].
    destruct (DumpBuffer c fs file) as [fs1 err].
    destruct (log_result c err _) as [c1|] eqn:Hl; [|done].
    apply log_result_variables in Hl. simplify_eq. by rewrite Hl.
  - unfold valSet_con_clear in Hrun. by simplify_eq.
  - unfold valSet_var_reset_all in Hrun. simplify_eq. simpl.
    rewrite lookup_fmap, Hcv. simpl. by rewrite Reset_default.
  - unfold valSet_var_reset in Hrun.
    destruct (call_new call) as [| | | |target]; try done.
    + destruct (LogErrorf c _) as [c1|] eqn:Hl; [|done].
      apply LogErrorf_variables in Hl. simplify_eq. by rewrite Hl.
    + unfold Console_ConVar in Hrun.
      destruct (variables c !! strings_ToLower target) as [cv1|] eqn:Ht.
      * destruct (LogInfof _ _) as [c1|] eqn:Hl; [|done].
        apply LogInfof_variables in Hl. simplify_eq. rewrite Hl. simpl.
        destruct (decide (strings_ToLower target = name)) as [Heq|Hne].
        { subst name. rewrite lookup_insert_eq. simplify_eq.
          by rewrite Reset_default. }
        by rewrite lookup_insert_ne.
      * destruct (LogErrorf c _) as [c1|] eqn:Hl; [|done].
        apply LogErrorf_variables in Hl. simplify_eq. by rewrite Hl.
  - unfold valSet_var_load in Hrun.
    destruct (file_argument _ _) as [file|]; [|done].
    destruct (Load c fs file) as [[c1 calls1] err] eqn:HL.
    destruct (log_result c1 err _) as [c2|] eqn:Hl; [|done].
    apply log_result_variables in Hl.
    assert (variables c1 !! name = Some cv) as H1.
    { unfold Load in HL.
      destruct (os_Open fs file) as [data|]; [|by simplify_eq].
      pose proof (Load_lines_func_entry (Scanner_lines data) c name cv Hcv Hf)
        as HLl.
      destruct (Load_lines c (Scanner_lines data)). by simplify_eq. }
    simplify_eq. by rewrite Hl.
  - unfold valSet_var_save in Hrun.
    destruct (file_argument _ _) as [file|]; [|done].
    destruct (Save cvs fs file) as [fs1 err].
    destruct (log_result c err _) as [c1|] eqn:Hl; [|done].
    apply log_result_variables in Hl. simplify_eq. by rewrite Hl.
  - unfold valSet_var_list in Hrun.
    destruct (var_list_loop c cvs) as [c1|] eqn:Hl; [|done].
    apply var_list_loop_variables in Hl. simplify_eq. by rewrite Hl.
  - done.
Qed.

(** X28.  No command takes the variables of [RegDefaultConVars] out of the
    console or changes them: if they are in the console before a command is
    run, with the function it calls, they are in it afterwards. *)
Theorem commands_keep_the_defaults (cvs : list ConVar) (c : Console)
    (fs : FS) (cmd : gostring) (c' : Console) (fs' : FS) (calls : list Call)
    (ret : option ConVar * option error) :
  has_defaults c ->
  ExecCmd_run cvs c fs cmd = Returns (c', fs', calls, ret) ->
  has_defaults c'.
Proof.
  intros Hd Hrun. apply (has_defaults_kept c); [|done].
  intros name cv Hcv Hf Hv. unfold ExecCmd_run, ExecCmd in Hrun.
  pose proof (exec_func_entry c false cmd name cv Hcv Hf) as He.
  destruct (exec c false cmd) as [[c1 calls1] ret1]. simpl in He.
  destruct calls1 as [|call calls1]; [by simplify_eq|].
  destruct (run_call cvs c1 fs call) as [[[c2 fs2] calls2]|] eqn:Hr; [|done].
  simplify_eq. by apply (run_call_keeps cvs c1 fs call c' fs' calls).
Qed.

End defaults.

(** ** The further theorems at work on the example console *)

Lemma example_lib_ToLower_on_ascii : @ToLower_on_ascii example_lib.
Proof. intros r _. reflexivity. Qed.

Lemma default_console_has_defaults : @has_defaults example_lib default_console.
Proof.
  unfold has_defaults, default_convars.
  repeat (constructor;
          [eexists; split; [reflexivity | vm_compute; reflexivity]|]).
  constructor.
Qed.

Lemma registered_found_in_any_case_witness :
  @Console_ConVar example_lib (RegConVar example_console cl_width)
    (str "CL_WIDTH") = Some cl_width.
Proof.
  apply (@registered_found_in_any_case example_lib example_console
           (str "Cl_Width") (str "CL_WIDTH") reflect.Int false [] (VInt 640)
           1%nat cl_width); reflexivity.
Defined.

Lemma kinds_are_kept_witness :
  Console_wf (@ExecCmds example_lib played_console [str "cl_width 5"]).1.
Proof.
  destruct (@kinds_are_kept example_lib played_console [str "cl_width 5"]
              empty_fs [] [] reflect.Int false [] (VInt 0) 0%nat
              played_console_wf) as [Hwf _].
  exact Hwf.
Defined.

Lemma accessors_follow_the_kind_witness :
  ConVar_Int cl_width = Returns (640, None)
  /\ ConVar_String cl_width
     = Returns ([], Some (errVarBadType (str "cl_width") reflect.String)).
Proof.
  assert (ConVar_typed cl_width) as Ht.
  { split; [reflexivity|]. split; [reflexivity|]. intros Hf. discriminate Hf. }
  pose proof (accessors_follow_the_kind cl_width Ht) as Hm.
  change (varType cl_width) with reflect.Int in Hm.
  destruct Hm as (n & Hv & Hi & _ & _ & Hs).
  change (value cl_width) with (VInt 640) in Hv. injection Hv as <-.
  split; [exact Hi | exact Hs].
Defined.

Lemma accessor_after_setter_witness :
  ConVar_Int (SetInt cl_width 10).1.1 = Returns (10, None).
Proof.
  assert (ConVar_typed cl_width) as Ht.
  { split; [reflexivity|]. split; [reflexivity|]. intros Hf. discriminate Hf. }
  destruct (accessor_after_setter cl_width 10 true [] 0%float Ht eq_refl)
    as (Hint & _ & _).
  destruct (Hint eq_refl) as (_ & Hget & _). exact Hget.
Defined.

Lemma exec_assigns_witness :
  exists cv',
    (@exec example_lib example_console false (str "CL_Title  Hello World ")).2
    = (Some cv', None)
    /\ value cv' = VString (str "hello world").
Proof.
  pose proof (@exec_assigns example_lib example_console false
                (str "CL_Title  Hello World ") (str "cl_title")
                (str " hello world ") 32%N cl_title) as Hm.
  destruct Hm as (cv' & Hret & _ & _ & Hstr).
  - reflexivity.
  - reflexivity.
  - discriminate.
  - repeat constructor.
  - discriminate.
  - vm_compute. discriminate.
  - reflexivity.
  - reflexivity.
  - reflexivity.
  - exists cv'. split; [exact Hret|]. apply (Hstr eq_refl).
Defined.

Lemma Load_runs_no_command_witness :
  variables
    (@Load example_lib played_console
       {| fs_files := {[ str "a.ini" := str "con_clear 1" ]}; fs_denied := [] |}
       (str "a.ini")).1.1 !! str "con_clear" = Some con_clear.
Proof.
  destruct (@Load_runs_no_command example_lib played_console
              {| fs_files := {[ str "a.ini" := str "con_clear 1" ]};
                 fs_denied := [] |}
              (str "a.ini") played_console_wf) as [Hkeep _].
  apply Hkeep; reflexivity.
Defined.

Lemma buffer_never_exceeds_bound_witness :
  exists c',
    apply_logops example_console
      [DoLogPrintf (str "a"); DoLogErrorf (str "b"); DoClearBuffer;
       DoSetLogLevel LogNone; DoLogInfof (str "c")] = Returns c'
    /\ buffer_within_bound c'.
Proof.
  destruct (buffer_never_exceeds_bound example_console
              [DoLogPrintf (str "a"); DoLogErrorf (str "b"); DoClearBuffer;
               DoSetLogLevel LogNone; DoLogInfof (str "c")])
    as (c' & Hops & Hb & _).
  - simpl. lia.
  - unfold buffer_within_bound. simpl. lia.
  - by exists c'.
Defined.

Lemma buffer_holds_the_last_lines_witness :
  exists c',
    log_all example_console [str "a"; str "b"; str "c"; str "d"] = Returns c'
    /\ BufferRaw c' = [str "b"; str "c"; str "d"].
Proof.
  destruct (buffer_holds_the_last_lines example_console
              [str "a"; str "b"; str "c"; str "d"]) as (c' & Hlog & Hbuf & _).
  - simpl. lia.
  - unfold buffer_within_bound. simpl. lia.
  - exists c'. split; [exact Hlog|]. rewrite Hbuf. reflexivity.
Defined.

Lemma Suggest_is_the_first_matches_witness :
  @Suggest example_lib [cl_width; con_clear; cl_scale; cl_title] (str "CL_") 2
  = [cl_width; cl_scale].
Proof.
  rewrite (@Suggest_is_the_first_matches example_lib
             [cl_width; con_clear; cl_scale; cl_title] (str "CL_") 2).
  - reflexivity.
  - lia.
  - simpl. lia.
Defined.

Lemma BufferWrappedRaw_wraps_witness :
  exists out,
    BufferWrappedRaw (set_buffer example_console [str "abcdef"; str "gh"]) 4
    = Returns out
    /\ concat out = str "abcdefgh".
Proof.
  destruct (BufferWrappedRaw_wraps
              (set_buffer example_console [str "abcdef"; str "gh"]) 4)
    as (out & Hret & Hcat & _).
  - lia.
  - exists out. split; [exact Hret|]. rewrite Hcat. reflexivity.
Defined.

Lemma RegDefaultConVars_registers_witness :
  exists c',
    @RegDefaultConVars example_lib example_console = Returns c'
    /\ @has_defaults example_lib c'
    /\ variables c' !! str "cl_width" = Some cl_width.
Proof.
  destruct (@RegDefaultConVars_registers example_lib example_console
              example_lib_ToLower_on_ascii)
    as (c' & Hreg & Hd & _ & Hother & _).
  exists c'. split; [exact Hreg|]. split; [exact Hd|].
  rewrite Hother; [reflexivity|]. vm_compute. not_in_list.
Defined.

Lemma con_clear_empties_the_buffer_witness :
  exists cv,
    @ExecCmd_run example_lib example_os [] default_console empty_fs
      (str " Con_Clear ")
    = Returns (ClearBuffer default_console, empty_fs, [], (Some cv, None)).
Proof.
  destruct (@con_clear_empties_the_buffer example_lib example_os []
              default_console empty_fs (str " Con_Clear ")
              example_lib_ToLower_on_ascii default_console_has_defaults
              eq_refl) as (cv & _ & Hrun).
  by exists cv.
Defined.

Lemma var_reset_all_resets_every_variable_witness :
  exists cv c',
    @ExecCmd_run example_lib example_os [] default_console empty_fs
      (str "var_reset_all")
    = Returns (c', empty_fs, [], (Some cv, None))
    /\ variables c' !! str "cl_width" = Some cl_width.
Proof.
  destruct (@var_reset_all_resets_every_variable example_lib example_os []
              default_console empty_fs (str "var_reset_all")
              example_lib_ToLower_on_ascii default_console_has_defaults
              eq_refl) as (cv & c' & Hrun & _ & Hvars).
  exists cv, c'. split; [exact Hrun|]. rewrite Hvars. reflexivity.
Defined.

Lemma var_reset_resets_the_named_variable_witness :
  exists cv c',
    @ExecCmd_run example_lib example_os [] default_console empty_fs
      (str "var_reset CL_Width")
    = Returns (c', empty_fs, [], (Some cv, None))
    /\ buffer c' = [str "[I] cl_width is reset"].
Proof.
  destruct (@var_reset_resets_the_named_variable example_lib example_os []
              default_console empty_fs (str "var_reset CL_Width")
              (str "cl_width") 32%N
              example_lib_ToLower_on_ascii default_console_has_defaults
              eq_refl eq_refl) as (cv & _ & Hrun).
  - discriminate.
  - exists cv. eexists. split; [exact Hrun|]. reflexivity.
Defined.

Lemma con_dump_writes_the_default_file_witness :
  exists cv c',
    @ExecCmd_run example_lib example_os [] default_console empty_fs
      (str "con_dump")
    = Returns (c', {| fs_files := {[ str "console.log" := [] ]};
                      fs_denied := [] |}, [], (Some cv, None)).
Proof.
  destruct (@con_dump_writes_the_default_file example_lib example_os []
              default_console empty_fs (str "con_dump")
              example_lib_ToLower_on_ascii default_console_has_defaults
              eq_refl) as (cv & _ & Hrun).
  - apply not_elem_of_nil.
  - exists cv. eexists. exact Hrun.
Defined.

Lemma con_dump_writes_the_named_file_witness :
  exists cv c',
    @ExecCmd_run example_lib example_os [] default_console empty_fs
      (str "con_dump Out.LOG")
    = Returns (c', {| fs_files := {[ str "out.log" := [] ]};
                      fs_denied := [] |}, [], (Some cv, None)).
Proof.
  destruct (@con_dump_writes_the_named_file example_lib example_os []
              default_console empty_fs (str "con_dump Out.LOG")
              (str "out.log") 32%N
              example_lib_ToLower_on_ascii default_console_has_defaults
              eq_refl eq_refl) as (cv & _ & Hrun).
  - discriminate.
  - exists cv. eexists. exact Hrun.
Defined.

Lemma var_save_writes_the_default_file_witness :
  exists cv c' fs',
    @ExecCmd_run example_lib example_os [Store cl_width (VInt 5)]
      default_console empty_fs (str "var_save")
    = Returns (c', fs', [], (Some cv, None))
    /\ fs_files fs' !! str "convars.ini" = Some (str "cl_width 5" ++ [10%N]).
Proof.
  destruct (@var_save_writes_the_default_file example_lib example_os
              [Store cl_width (VInt 5)] default_console empty_fs
              (str "var_save")
              example_lib_ToLower_on_ascii default_console_has_defaults
              eq_refl) as (cv & _ & Hrun).
  exists cv. eexists. eexists. split; [exact Hrun|]. reflexivity.
Defined.

Lemma var_load_loads_the_default_file_witness :
  exists cv c',
    @ExecCmd_run example_lib example_os [] default_console empty_fs
      (str "var_load")
    = Returns (c', empty_fs, [], (Some cv, None))
    /\ buffer c' = [str "[E] open convars.ini"].
Proof.
  destruct (@var_load_loads_the_default_file example_lib example_os []
              default_console empty_fs (str "var_load")
              example_lib_ToLower_on_ascii default_console_has_defaults
              eq_refl) as (cv & _ & Hrun).
  exists cv. eexists. split; [exact Hrun|]. reflexivity.
Defined.

Lemma var_list_logs_every_variable_witness :
  exists cv c',
    @ExecCmd_run example_lib example_os [cl_width; cl_scale] default_console
      empty_fs (str "var_list")
    = Returns (c', empty_fs, [], (Some cv, None))
    /\ buffer c' = [str "[I] cl_width: "; str "[I] cl_scale: "].
Proof.
  destruct (@var_list_logs_every_variable example_lib example_os
              [cl_width; cl_scale] default_console empty_fs (str "var_list")
              example_lib_ToLower_on_ascii default_console_has_defaults
              eq_refl) as (cv & c' & Hrun & _ & Hbuf).
  - vm_compute. discriminate.
  - vm_compute. discriminate.
  - vm_compute. lia.
  - exists cv, c'. split; [exact Hrun|]. rewrite Hbuf. reflexivity.
Defined.

Lemma commands_keep_the_defaults_witness :
  @has_defaults example_lib (ClearBuffer default_console).
Proof.
  eapply (@commands_keep_the_defaults example_lib example_os []
            default_console empty_fs (str "con_clear")).
  - exact default_console_has_defaults.
  - vm_compute. reflexivity.
Defined.

Lemma NewConVar_panics_iff_witness :
  @NewConVar example_lib (str "cl_fast") reflect.Bool false [] (VBool true)
    6%nat = Panics.
Proof.
  destruct (@NewConVar_panics_iff example_lib (str "cl_fast") reflect.Bool
              false [] (VBool true) 6%nat) as [[_ Hpanics] _].
  apply Hpanics. right. reflexivity.
Defined.

Lemma exec_without_variable_witness :
  @exec example_lib example_console false (str " # cl_width 5")
  = (example_console, [], (None, None))
  /\ @exec example_lib example_console true (str "CL_Height 5")
     = (example_console, [], (None, Some (errVarNotFound (str "cl_height")))).
Proof.
  split.
  - destruct (@exec_without_variable example_lib example_console false
                (str " # cl_width 5")) as (_ & Hcomment & _).
    apply (Hcomment [str "cl_width"; str "5"]). reflexivity.
  - destruct (@exec_without_variable example_lib example_console true
                (str "CL_Height 5")) as (_ & _ & Hmissing).
    apply (Hmissing (str "cl_height") [str "5"]);
      [reflexivity | discriminate | reflexivity].
Defined.

Lemma Save_of_defaults_is_empty_witness :
  fs_files
    (@Save example_lib [cl_width; con_clear; cl_title] empty_fs (str "a.ini")).1
    !! str "a.ini" = Some [].
Proof.
  destruct (@Save_of_defaults_is_empty example_lib example_console
              [cl_width; con_clear; cl_title] empty_fs (str "a.ini"))
    as [Hempty _].
  rewrite Hempty; [reflexivity|]. intros cv Hin.
  apply elem_of_cons in Hin as [->|Hin]; [right; reflexivity|].
  apply elem_of_cons in Hin as [->|Hin]; [left; reflexivity|].
  apply elem_of_cons in Hin as [->|Hin]; [right; reflexivity|].
  by apply elem_of_nil in Hin.
Defined.

Lemma chunks_cut_the_text_witness :
  chunks (str "abcdefgh") 0 = Panics
  /\ exists full last,
       chunks (str "abcdefgh") 3 = Returns (full ++ [last])
       /\ concat (full ++ [last]) = str "abcdefgh".
Proof.
  destruct (chunks_cut_the_text (str "abcdefgh") 0) as [_ Hpanics].
  destruct (chunks_cut_the_text (str "abcdefgh") 3) as [Hcut _].
  split; [apply Hpanics; [lia | discriminate]|].
  destruct Hcut as (full & last & Hret & Hcat & _); [lia|].
  by exists full, last.
Defined.
